(** * The event log and its Database Manager

    A shallow embedding of the event-processing core of the backend:

    - [backend/app/functions/events/models.py]      (event creation, validation)
    - [backend/app/functions/events/services.py]    (event store queries)
    - [backend/app/functions/database_manager/event_processor.py]
                                                     (dispatcher, status tracker)
    - [backend/app/functions/database_manager/services.py]
                                                     (batch runner, statistics)
    - [backend/app/functions/events/routes.py],
      [backend/app/functions/database_manager/routes.py]
                                                     (validation of the requests)

    The Python code talks to a remote table through a client object and
    reads the system clock.  Both are made explicit here: a [World] holds
    the rows of the [events] table, the readings the clock is going to
    give, the database calls that are going to fail, the warning and
    error lines written to the logger, and a trace of the calls made to
    the dispatcher and to the handlers.  Python functions become
    functions in the monad [M] of world-passing computations that may
    raise an exception. *)

From Stdlib Require Import ZArith QArith String Ascii.
From stdpp Require Import base list sorting strings pretty gmap.

#[local] Set Warnings "-register-all".
Local Open Scope string_scope.
Local Open Scope list_scope.
Local Open Scope Z_scope.

(** ** Python strings

    A [string] stands for a Python [str] whose characters are the code
    points below 256, one [ascii] per character; [String.length] is
    Python's [len].  On these texts [lower] is Python's [str.lower] and
    keeps the length; above code point 255 Python's [str.lower] can
    lengthen a text (the capital I with a dot above becomes two
    characters), which this type of strings cannot express. *)

Module PyStr.

Definition code (c : ascii) : N := N_of_ascii c.

(** [str.lower] on one character: the letters A-Z and the upper-case
    letters of the Latin-1 block (all of 0xC0-0xDE but the
    multiplication sign) move 32 places up. *)
Definition lower_char (c : ascii) : ascii :=
  let n := code c in
  if ((65 <=? n) && (n <=? 90) ||
      (192 <=? n) && (n <=? 222) && negb (n =? 215))%N
  then ascii_of_N (n + 32) else c.

Fixpoint lower (s : string) : string :=
  match s with
  | EmptyString => EmptyString
  | String c s' => String (lower_char c) (lower s')
  end.

(** [s.replace(a, b)] for one-character [a] and [b]. *)
Fixpoint replace (a b : ascii) (s : string) : string :=
  match s with
  | EmptyString => EmptyString
  | String c s' => String (if Ascii.eqb c a then b else c) (replace a b s')
  end.

(** [a in s] for a one-character [a]. *)
Fixpoint contains (a : ascii) (s : string) : bool :=
  match s with
  | EmptyString => false
  | String c s' => Ascii.eqb c a || contains a s'
  end.

(** [s.split(sep)] for a one-character separator: always at least
    one piece, one more than there are separators. *)
Fixpoint split (sep : ascii) (s : string) : list string :=
  match s with
  | EmptyString => [EmptyString]
  | String c s' =>
      if Ascii.eqb c sep then EmptyString :: split sep s'
      else match split sep s' with
           | p :: ps => String c p :: ps
           | [] => [String c EmptyString]
           end
  end.

(** [s.startswith((p1, p2, ...))]. *)
Definition startswith (ps : list string) (s : string) : bool :=
  existsb (fun p => String.prefix p s) ps.

(** [sep.join(parts)]. *)
Fixpoint join (sep : string) (parts : list string) : string :=
  match parts with
  | [] => ""
  | [p] => p
  | p :: ps => p +:+ sep +:+ join sep ps
  end.

Definition hex_digit (n : N) : ascii :=
  if (n <? 10)%N then ascii_of_N (48 + n) else ascii_of_N (87 + n).

(** Characters [repr] leaves as they are: the printable ones. *)
Definition printable (c : ascii) : bool :=
  let n := code c in
  ((32 <=? n) && (n <? 127) || (161 <=? n) && negb (n =? 173))%N.

Definition escape_char (quote c : ascii) : string :=
  if Ascii.eqb c "\" then "\\"
  else if Ascii.eqb c quote then String "\" (String quote "")
  else if (code c =? 9)%N then "\t"
  else if (code c =? 10)%N then "\n"
  else if (code c =? 13)%N then "\r"
  else if printable c then String c ""
  else String "\" (String "x" (String (hex_digit (code c / 16))
                                (String (hex_digit (code c mod 16)) ""))).

Fixpoint escape (quote : ascii) (s : string) : string :=
  match s with
  | EmptyString => EmptyString
  | String c s' => escape_char quote c +:+ escape quote s'
  end.

(** [repr(s)]: single quotes, unless the text has a single quote and
    no double quote. *)
Definition double_quote : ascii := ascii_of_N 34.

Definition repr (s : string) : string :=
  let q : ascii :=
    if contains "'" s && negb (contains double_quote s)
    then double_quote else "'"%char in
  String q (escape q s +:+ String q "").

End PyStr.

(** ** JSON payloads

    [data] and [metadata] are [Dict[str, Any]] decoded from JSON.  A
    float is kept as the text Python prints for it; a dictionary keeps
    its items in insertion order, with distinct keys. *)

Inductive json : Type :=
| JNull
| JBool (b : bool)
| JInt (z : Z)
| JFloat (text : string)
| JStr (s : string)
| JList (items : list json)
| JDict (items : list (string * json)).

Definition pydict : Type := list (string * json).

Module PyVal.

(** [d.get(key)] and [d.get(key, default)]. *)
Fixpoint dict_get (d : pydict) (key : string) (default : json) : json :=
  match d with
  | [] => default
  | (k, v) :: d' => if String.eqb k key then v else dict_get d' key default
  end.

Fixpoint repr (v : json) : string :=
  match v with
  | JNull => "None"
  | JBool true => "True"
  | JBool false => "False"
  | JInt z => pretty z
  | JFloat text => text
  | JStr s => PyStr.repr s
  | JList items => "[" +:+ PyStr.join ", " (List.map repr items) +:+ "]"
  | JDict items =>
      "{" +:+ PyStr.join ", "
                (List.map (fun kv => PyStr.repr (fst kv) +:+ ": " +:+ repr (snd kv))
                          items) +:+ "}"
  end.

(** [str(v)], which is what an f-string field [{v}] prints. *)
Definition str (v : json) : string :=
  match v with
  | JStr s => s
  | _ => repr v
  end.

Definition type_name (v : json) : string :=
  match v with
  | JNull => "NoneType"
  | JBool _ => "bool"
  | JInt _ => "int"
  | JFloat _ => "float"
  | JStr _ => "str"
  | JList _ => "list"
  | JDict _ => "dict"
  end.

End PyVal.

(** ** Exceptions and outcomes *)

Inductive exn : Type :=
| TypeError (msg : string)
| ValueError (msg : string)
| ClientError (msg : string)
| HTTPException (status_code : nat) (detail : string).

(** [str(e)].  A [ClientError] stands for whatever the database client
    raises when a call fails, and carries the text [str] gives for it.
    An [HTTPException] prints as its status code and its detail. *)
Definition exn_str (e : exn) : string :=
  match e with
  | TypeError msg | ValueError msg | ClientError msg => msg
  | HTTPException code detail => pretty code +:+ ": " +:+ detail
  end.

Inductive outcome (A : Type) : Type :=
| Return (a : A)
| Raise (e : exn).
Arguments Return {A} a.
Arguments Raise {A} e.

(** [len(v)] *)
Definition py_len (v : json) : outcome nat :=
  match v with
  | JStr s => Return (String.length s)
  | JList items => Return (length items)
  | JDict items => Return (length items)
  | _ => Raise (TypeError ("object of type '" +:+ PyVal.type_name v +:+ "' has no len()"))
  end.

(** ** Events *)

(** A [UUID] is kept as its canonical text, which is what [str] gives
    and what the table stores. *)
Definition UUID : Type := string.

(** Instants: clock readings, in seconds. *)
Definition instant : Type := Q.

(** [EventResponse]: one row of the [events] table. *)
Record Event : Type := {
  id : UUID;
  event_number : Z;
  event_type : string;
  aggregate_type : string;
  aggregate_id : UUID;
  data : pydict;
  metadata : pydict;
  created_by : string;
  user_id : option UUID;
  created_at : instant;
  event_version : Z;
  is_processed : bool;
  processed_at : option instant;
  processing_error : option string;
  correlation_id : option UUID;
  causation_id : option UUID;
  idempotency_key : option string
}.

(** The two row updates the status tracker sends. *)
Definition set_processed (now : instant) (e : Event) : Event :=
  {| id := id e; event_number := event_number e; event_type := event_type e;
     aggregate_type := aggregate_type e; aggregate_id := aggregate_id e;
     data := data e; metadata := metadata e; created_by := created_by e;
     user_id := user_id e; created_at := created_at e;
     event_version := event_version e;
     is_processed := true;
     processed_at := Some now;
     processing_error := None;
     correlation_id := correlation_id e; causation_id := causation_id e;
     idempotency_key := idempotency_key e |}.

Definition set_error (error : string) (e : Event) : Event :=
  {| id := id e; event_number := event_number e; event_type := event_type e;
     aggregate_type := aggregate_type e; aggregate_id := aggregate_id e;
     data := data e; metadata := metadata e; created_by := created_by e;
     user_id := user_id e; created_at := created_at e;
     event_version := event_version e;
     is_processed := false;
     processed_at := processed_at e;
     processing_error := Some error;
     correlation_id := correlation_id e; causation_id := causation_id e;
     idempotency_key := idempotency_key e |}.

(** ** The world *)

Inductive log_level : Type := WARNING | ERROR.

Record log_record : Type := { level : log_level; message : string }.

(** What the dispatcher was asked to do, in the order it happened. *)
Inductive call : Type :=
| CallProcessEvent (event_id : UUID)
| CallHandler (handler_name : string) (event_id : UUID).

Record World : Type := {
  events : list Event;             (* the rows of table "events" *)
  clock : nat -> instant;          (* the k-th reading of the system clock *)
  ticks : nat;                     (* readings taken so far *)
  db_fault : nat -> option string; (* the k-th database call fails with this text *)
  db_calls : nat;                  (* database calls made so far *)
  log : list log_record;           (* logger.warning and logger.error lines *)
  trace : list call
}.

Definition with_events (rows : list Event) (w : World) : World :=
  {| events := rows; clock := clock w; ticks := ticks w; db_fault := db_fault w;
     db_calls := db_calls w; log := log w; trace := trace w |}.

Definition with_ticks (n : nat) (w : World) : World :=
  {| events := events w; clock := clock w; ticks := n; db_fault := db_fault w;
     db_calls := db_calls w; log := log w; trace := trace w |}.

Definition with_db_calls (n : nat) (w : World) : World :=
  {| events := events w; clock := clock w; ticks := ticks w; db_fault := db_fault w;
     db_calls := n; log := log w; trace := trace w |}.

Definition with_log (l : list log_record) (w : World) : World :=
  {| events := events w; clock := clock w; ticks := ticks w; db_fault := db_fault w;
     db_calls := db_calls w; log := l; trace := trace w |}.

Definition with_trace (t : list call) (w : World) : World :=
  {| events := events w; clock := clock w; ticks := ticks w; db_fault := db_fault w;
     db_calls := db_calls w; log := log w; trace := t |}.

(** ** The monad of Python computations *)

Definition M (A : Type) : Type := World -> outcome A * World.

Definition ret {A} (a : A) : M A := fun w => (Return a, w).

Definition raise {A} (e : exn) : M A := fun w => (Raise e, w).

Definition bind {A B} (m : M A) (k : A -> M B) : M B :=
  fun w => match m w with
           | (Return a, w') => k a w'
           | (Raise e, w') => (Raise e, w')
           end.

(** [try: m  except Exception as e: h e] *)
Definition try_except {A} (m : M A) (h : exn -> M A) : M A :=
  fun w => match m w with
           | (Return a, w') => (Return a, w')
           | (Raise e, w') => h e w'
           end.

Definition lift {A} (o : outcome A) : M A := fun w => (o, w).

Notation "'let*' x ':=' m 'in' k" := (bind m (fun x => k))
  (at level 10, x name, m at level 100, k at level 200).
Notation "m ';;' k" := (bind m (fun _ => k))
  (at level 100, k at level 200, right associativity).

(** [time.time()] and [datetime.utcnow()] both read the system clock. *)
Definition time_time : M instant :=
  fun w => (Return (clock w (ticks w)), with_ticks (S (ticks w)) w).

Definition utcnow : M instant := time_time.

Definition logger (lvl : log_level) (msg : string) : M unit :=
  fun w => (Return tt, with_log (log w ++ [{| level := lvl; message := msg |}]) w).

Definition record_call (c : call) : M unit :=
  fun w => (Return tt, with_trace (trace w ++ [c]) w).

(** ** The database client

    [supabase.table("events")....execute()]: one round trip.  It either
    fails, leaving the table as it was, or runs the query, which reads
    the rows and may replace them.  The client object itself is taken
    to exist: [get_service_db] has built it before. *)
Definition execute {A} (query : list Event -> A * list Event) : M A :=
  fun w =>
    let w' := with_db_calls (S (db_calls w)) w in
    match db_fault w (db_calls w) with
    | Some msg => (Raise (ClientError msg), w')
    | None => let (a, rows) := query (events w) in (Return a, with_events rows w')
    end.

(** [.select(...)] with a row filter: the table is only read. *)
Definition select {A} (q : list Event -> A) : list Event -> A * list Event :=
  fun rows => (q rows, rows).

(** The table after [.update(patch).eq("id", event_id)]: every row with
    that id is patched, the others are left alone. *)
Definition patched (event_id : UUID) (patch : Event -> Event) (rows : list Event)
  : list Event :=
  List.map (fun e => if String.eqb (id e) event_id then patch e else e) rows.

(** [.update(patch).eq("id", event_id)]; the answer holds the patched
    rows. *)
Definition update_eq_id (event_id : UUID) (patch : Event -> Event)
  : list Event -> list Event * list Event :=
  fun rows =>
    (List.map patch (List.filter (fun e => String.eqb (id e) event_id) rows),
     patched event_id patch rows).

(** [.order("event_number", desc=False)] and [desc=True]. *)
Definition by_event_number : relation Event :=
  fun a b => event_number a <= event_number b.

Definition by_event_number_desc : relation Event :=
  fun a b => event_number b <= event_number a.

#[global] Instance by_event_number_dec a b : Decision (by_event_number a b) :=
  Z_le_dec (event_number a) (event_number b).

#[global] Instance by_event_number_desc_dec a b : Decision (by_event_number_desc a b) :=
  Z_le_dec (event_number b) (event_number a).

Definition order_asc (rows : list Event) : list Event :=
  merge_sort by_event_number rows.

Definition order_desc (rows : list Event) : list Event :=
  merge_sort by_event_number_desc rows.

(** ** Event creation: [events/models.py] *)

Module EventCreate.

(** The body of a post request, field by field. *)
Record t : Type := {
  event_type : string;
  aggregate_type : string;
  aggregate_id : UUID;
  data : pydict;
  metadata : option pydict;
  created_by : string;
  correlation_id : option UUID;
  causation_id : option UUID;
  idempotency_key : option string
}.

(** [character] or [characters], as pydantic writes a count. *)
Definition characters (n : nat) : string :=
  pretty n +:+ (if (n =? 1)%nat then " character" else " characters").

(** [Field(min_length=..., max_length=...)]: a length out of bounds is
    reported like a validator that raises. *)
Definition check_length (min_length max_length : nat) (v : string) : outcome string :=
  if (String.length v <? min_length)%nat then
    Raise (ValueError ("String should have at least " +:+ characters min_length))
  else if (max_length <? String.length v)%nat then
    Raise (ValueError ("String should have at most " +:+ characters max_length))
  else Return v.

Definition validate_event_type (v : string) : outcome string :=
  if negb (PyStr.contains "." v) then
    Raise (ValueError "event_type must follow format: aggregate.action (e.g., product.created)")
  else
    let parts := PyStr.split "." v in
    if negb (length parts =? 2)%nat then
      Raise (ValueError "event_type must have exactly one dot (aggregate.action)")
    else if negb (forallb (fun p => negb (String.eqb p "")) parts) then
      Raise (ValueError "event_type parts cannot be empty")
    else Return (PyStr.lower v).

Definition validate_aggregate_type (v : string) : outcome string :=
  Return (PyStr.lower v).

Definition validate_created_by (v : string) : outcome string :=
  if negb (PyStr.startswith ["user:"; "agent:"; "system"] v) then
    Raise (ValueError "created_by must start with user:, agent:, or system")
  else Return v.

(** A field passes its declared constraints first, its validator next. *)
Definition field (min_length max_length : nat)
           (validator : string -> outcome string) (v : string) : outcome string :=
  match check_length min_length max_length v with
  | Return v' => validator v'
  | Raise e => Raise e
  end.

Definition field_event_type : string -> outcome string :=
  field 3 100 validate_event_type.

Definition field_aggregate_type : string -> outcome string :=
  field 1 50 validate_aggregate_type.

Definition field_created_by : string -> outcome string :=
  field 1 100 validate_created_by.

Definition field_idempotency_key (v : option string) : outcome (option string) :=
  match v with
  | None => Return None
  | Some k => match check_length 0 255 k with
              | Return k' => Return (Some k')
              | Raise e => Raise e
              end
  end.

(** One entry of a validation error: the field and what was wrong. *)
Definition field_error : Type := (string * exn)%type.

Definition errors_of {A} (name : string) (o : outcome A) : list field_error :=
  match o with
  | Return _ => []
  | Raise e => [(name, e)]
  end.

(** Building an [EventCreate] from a body: the validated model, or every
    field error. *)
Definition new (body : t) : list field_error + t :=
  match field_event_type (event_type body),
        field_aggregate_type (aggregate_type body),
        field_created_by (created_by body),
        field_idempotency_key (idempotency_key body) with
  | Return et, Return at_, Return cb, Return ik =>
      inr {| event_type := et; aggregate_type := at_;
             aggregate_id := aggregate_id body; data := data body;
             metadata := metadata body; created_by := cb;
             correlation_id := correlation_id body;
             causation_id := causation_id body; idempotency_key := ik |}
  | o1, o2, o3, o4 =>
      inl (errors_of "event_type" o1 ++ errors_of "aggregate_type" o2 ++
           errors_of "created_by" o3 ++ errors_of "idempotency_key" o4)
  end.

End EventCreate.

(** [EventStreamQuery] *)
Record EventStreamQuery : Type := {
  q_event_type : option string;
  q_aggregate_type : option string;
  q_aggregate_id : option UUID;
  q_created_by : option string;
  q_correlation_id : option UUID;
  q_is_processed : option bool;
  q_limit : nat;
  q_offset : nat
}.

(** [EventProcessingUpdate] *)
Record EventProcessingUpdate : Type := {
  u_is_processed : bool;
  u_processing_error : option string
}.

(** [AggregateEventHistory]: the columns the history query selects. *)
Record AggregateEventHistory : Type := {
  h_event_number : Z;
  h_event_type : string;
  h_data : pydict;
  h_created_by : string;
  h_created_at : instant
}.

(** ** The event service: [events/services.py] *)

Module EventService.

Definition unprocessed (e : Event) : bool := negb (is_processed e).

Definition has_id (event_id : UUID) (e : Event) : bool := String.eqb (id e) event_id.

(** Modelled from the spec: the column defaults of table [events] (its
    schema file is not among the sources).  The store assigns the id and
    the next sequence number, above every number in use, stamps the
    creation time, and a new event starts unprocessed, with no
    processing time and no error. *)
Definition insert (new_id : UUID) (now : instant)
           (event_data : EventCreate.t) (user : option UUID)
  : list Event -> list Event * list Event :=
  fun rows =>
    let row :=
      {| id := new_id;
         event_number := 1 + foldr Z.max 0 (List.map event_number rows);
         event_type := EventCreate.event_type event_data;
         aggregate_type := EventCreate.aggregate_type event_data;
         aggregate_id := EventCreate.aggregate_id event_data;
         data := EventCreate.data event_data;
         metadata := default [] (EventCreate.metadata event_data);
         created_by := EventCreate.created_by event_data;
         user_id := user;
         created_at := now;
         event_version := 1;
         is_processed := false;
         processed_at := None;
         processing_error := None;
         correlation_id := EventCreate.correlation_id event_data;
         causation_id := EventCreate.causation_id event_data;
         idempotency_key := EventCreate.idempotency_key event_data |} in
    ([row], rows ++ [row]).

Definition reraise_http {A} (prefix : string) (e : exn) : M A :=
  match e with
  | HTTPException _ _ => raise e
  | _ => raise (HTTPException 500 (prefix +:+ exn_str e))
  end.

(** [new_id] is the id the store generates for the new row. *)
Definition post_event (new_id : UUID) (event_data : EventCreate.t)
           (user : option UUID) : M Event :=
  try_except
    (let* now := utcnow in
     let* response := execute (insert new_id now event_data user) in
     match response with
     | [] => raise (HTTPException 500 "Failed to create event")
     | row :: _ => ret row
     end)
    (reraise_http "Failed to post event: ").

Definition truthy (o : option string) : option string :=
  match o with
  | Some EmptyString => None
  | _ => o
  end.

Definition eq_opt (field : Event -> string) (o : option string) (e : Event) : bool :=
  match o with
  | None => true
  | Some v => String.eqb (field e) v
  end.

Definition matches (query : EventStreamQuery) (e : Event) : bool :=
  eq_opt event_type (truthy (q_event_type query)) e &&
  eq_opt aggregate_type (truthy (q_aggregate_type query)) e &&
  eq_opt aggregate_id (q_aggregate_id query) e &&
  eq_opt created_by (truthy (q_created_by query)) e &&
  match q_correlation_id query with
  | None => true
  | Some c => bool_decide (correlation_id e = Some c)
  end &&
  match q_is_processed query with
  | None => true
  | Some b => Bool.eqb (is_processed e) b
  end.

Definition get_events (query : EventStreamQuery) : M (list Event) :=
  try_except
    (execute (select (fun rows =>
       take (q_limit query)
            (drop (q_offset query) (order_desc (List.filter (matches query) rows))))))
    (fun e => raise (HTTPException 500 ("Failed to query events: " +:+ exn_str e))).

Definition get_event_by_id (event_id : UUID) : M Event :=
  try_except
    (let* response := execute (select (List.filter (has_id event_id))) in
     match response with
     | [] => raise (HTTPException 404 ("Event " +:+ event_id +:+ " not found"))
     | row :: _ => ret row
     end)
    (reraise_http "Failed to get event: ").

(** [limit] is a natural number; the routes admit 1 to 1000. *)
Definition get_unprocessed_events (limit : nat) : M (list Event) :=
  try_except
    (execute (select (fun rows =>
       take limit (order_asc (List.filter unprocessed rows)))))
    (fun e => raise (HTTPException 500
                       ("Failed to get unprocessed events: " +:+ exn_str e))).

(** [counts[key] = counts.get(key, 0) + 1] *)
Definition bump (key : string) (counts : gmap string Z) : gmap string Z :=
  <[key := default 0 (counts !! key) + 1]> counts.

Definition count_by (field : Event -> string) (rows : list Event) : gmap string Z :=
  fold_left (fun counts e => bump (field e) counts) rows ∅.

Record stats : Type := {
  total_events : Z;
  unprocessed_events : Z;
  processed_events : Z;
  event_types : gmap string Z;
  aggregate_types : gmap string Z
}.

Definition get_event_stats : M stats :=
  try_except
    (let* total_count := execute (select (fun rows => Z.of_nat (length rows))) in
     let* unprocessed_count :=
       execute (select (fun rows => Z.of_nat (length (List.filter unprocessed rows)))) in
     let* events_response := execute (select (fun rows => rows)) in
     ret {| total_events := total_count;
            unprocessed_events := unprocessed_count;
            processed_events := total_count - unprocessed_count;
            event_types := count_by event_type events_response;
            aggregate_types := count_by aggregate_type events_response |})
    (fun e => raise (HTTPException 500 ("Failed to get event stats: " +:+ exn_str e))).

(** The row update [update_event_processing] sends: the three status
    columns, all of them. *)
Definition set_processing (done : bool) (stamp : option instant)
           (err : option string) (e : Event) : Event :=
  {| id := id e; event_number := event_number e; event_type := event_type e;
     aggregate_type := aggregate_type e; aggregate_id := aggregate_id e;
     data := data e; metadata := metadata e; created_by := created_by e;
     user_id := user_id e; created_at := created_at e;
     event_version := event_version e;
     is_processed := done;
     processed_at := stamp;
     processing_error := err;
     correlation_id := correlation_id e; causation_id := causation_id e;
     idempotency_key := idempotency_key e |}.

Definition update_event_processing (event_id : UUID)
           (update_data : EventProcessingUpdate) : M Event :=
  try_except
    (let* stamp :=
       if u_is_processed update_data
       then (let* now := utcnow in ret (Some now))
       else ret None in
     let* response :=
       execute (update_eq_id event_id
                  (set_processing (u_is_processed update_data) stamp
                                  (u_processing_error update_data))) in
     match response with
     | [] => raise (HTTPException 404 ("Event " +:+ event_id +:+ " not found"))
     | row :: _ => ret row
     end)
    (reraise_http "Failed to update event: ").

Definition history_entry (e : Event) : AggregateEventHistory :=
  {| h_event_number := event_number e; h_event_type := event_type e;
     h_data := data e; h_created_by := created_by e;
     h_created_at := created_at e |}.

Definition of_aggregate (aggregate_type_ : string) (aggregate_id_ : UUID)
           (e : Event) : bool :=
  String.eqb (aggregate_type e) aggregate_type_ &&
  String.eqb (aggregate_id e) aggregate_id_.

Definition get_aggregate_history (aggregate_type_ : string) (aggregate_id_ : UUID)
  : M (list AggregateEventHistory) :=
  try_except
    (execute (select (fun rows =>
       List.map history_entry
         (order_asc (List.filter
                       (of_aggregate (PyStr.lower aggregate_type_) aggregate_id_)
                       rows)))))
    (fun e => raise (HTTPException 500
                       ("Failed to get aggregate history: " +:+ exn_str e))).

End EventService.

(** The post route: the body is validated before the service is called;
    a body that fails validation is answered with its errors. *)
Definition post_event_route (new_id : UUID) (body : EventCreate.t) (user : option UUID)
  : World -> (list EventCreate.field_error + outcome Event) * World :=
  fun w =>
    match EventCreate.new body with
    | inl errors => (inl errors, w)
    | inr event_data =>
        let (r, w') := EventService.post_event new_id event_data user w in (inr r, w')
    end.

(** ** Results: [database_manager/models.py] *)

Record EventProcessingResult : Type := {
  event_id : UUID;
  result_event_type : string;
  success : bool;
  error : option string;
  operations_executed : list string;
  processing_time_ms : Q
}.

Record BatchProcessingResult : Type := {
  total_events : Z;
  successful : Z;
  failed : Z;
  batch_processing_time_ms : Q;
  results : list EventProcessingResult
}.

(** The floating-point numbers of the statistics are kept as exact
    rationals: [success_rate] is the exact quotient where Python rounds
    to a binary float. *)
Record DatabaseManagerStats : Type := {
  total_events_processed : Z;
  events_pending : Z;
  events_failed : Z;
  success_rate : Q;
  average_processing_time_ms : Q;
  last_processed_at : option instant;
  event_type_breakdown : gmap string Z
}.

Record EventToOperationMapping : Type := {
  m_event_type : string;
  m_aggregate_type : string;
  m_operations : list string;
  m_description : string
}.

(** [(time.time() - start_time) * 1000] *)
Definition elapsed_ms (now start_time : instant) : Q := ((now - start_time) * 1000)%Q.

(** ** The dispatcher: [database_manager/event_processor.py] *)

Module EventProcessor.

Definition handler : Type := Event -> outcome (list string).

Definition get (key : string) (event : Event) : json :=
  PyVal.dict_get (data event) key JNull.

(** The handlers write one information line to the logger and answer
    one description.  The information lines are not kept in the
    world; what is kept of them is that formatting one can raise,
    where it takes the [len] of a payload entry. *)

Definition _handle_product_created (event : Event) : outcome (list string) :=
  Return ["Logged product creation: " +:+ PyVal.str (get "sku" event)].

Definition _handle_product_updated (event : Event) : outcome (list string) :=
  let product_id := aggregate_id event in
  let changes := PyVal.dict_get (data event) "changes" (JDict []) in
  match py_len changes with
  | Raise e => Raise e
  | Return _ => Return ["Logged product update: " +:+ product_id]
  end.

Definition _handle_product_price_changed (event : Event) : outcome (list string) :=
  Return ["Logged price change: " +:+ aggregate_id event].

Definition _handle_product_stock_updated (event : Event) : outcome (list string) :=
  Return ["Logged stock update: " +:+ aggregate_id event].

Definition _handle_product_deactivated (event : Event) : outcome (list string) :=
  Return ["Logged product deactivation: " +:+ aggregate_id event].

Definition _handle_order_created (event : Event) : outcome (list string) :=
  let order_id := aggregate_id event in
  match py_len (PyVal.dict_get (data event) "items" (JList [])) with
  | Raise e => Raise e
  | Return _ => Return ["Logged order creation: " +:+ order_id]
  end.

Definition _handle_order_payment_received (event : Event) : outcome (list string) :=
  Return ["Logged payment: " +:+ aggregate_id event].

Definition _handle_order_status_changed (event : Event) : outcome (list string) :=
  Return ["Logged status change: " +:+ aggregate_id event].

Definition _handle_order_fulfilled (event : Event) : outcome (list string) :=
  Return ["Logged order fulfillment: " +:+ aggregate_id event].

Definition _handle_order_cancelled (event : Event) : outcome (list string) :=
  Return ["Logged order cancellation: " +:+ aggregate_id event].

Definition _handle_customer_registered (event : Event) : outcome (list string) :=
  Return ["Logged customer registration: " +:+ aggregate_id event].

Definition _handle_customer_profile_updated (event : Event) : outcome (list string) :=
  let customer_id := aggregate_id event in
  let changes := PyVal.dict_get (data event) "changes" (JDict []) in
  match py_len changes with
  | Raise e => Raise e
  | Return _ => Return ["Logged profile update: " +:+ customer_id]
  end.

Definition _handle_dealer_application_submitted (event : Event) : outcome (list string) :=
  Return ["Logged dealer application: " +:+ aggregate_id event].

Definition _handle_dealer_approved (event : Event) : outcome (list string) :=
  Return ["Logged dealer approval: " +:+ aggregate_id event].

Definition _handle_dealer_pricing_updated (event : Event) : outcome (list string) :=
  Return ["Logged pricing update: " +:+ aggregate_id event].

Definition _handle_agent_decision_proposed (event : Event) : outcome (list string) :=
  Return ["Logged agent decision: " +:+ aggregate_id event].

Definition _handle_agent_decision_approved (event : Event) : outcome (list string) :=
  Return ["Logged decision approval: " +:+ aggregate_id event].

Definition _handle_agent_decision_rejected (event : Event) : outcome (list string) :=
  Return ["Logged decision rejection: " +:+ aggregate_id event].

(** The attributes of the processor whose name starts with [_handle_]. *)
Definition attributes : list (string * handler) :=
  [ ("_handle_product_created", _handle_product_created);
    ("_handle_product_updated", _handle_product_updated);
    ("_handle_product_price_changed", _handle_product_price_changed);
    ("_handle_product_stock_updated", _handle_product_stock_updated);
    ("_handle_product_deactivated", _handle_product_deactivated);
    ("_handle_order_created", _handle_order_created);
    ("_handle_order_payment_received", _handle_order_payment_received);
    ("_handle_order_status_changed", _handle_order_status_changed);
    ("_handle_order_fulfilled", _handle_order_fulfilled);
    ("_handle_order_cancelled", _handle_order_cancelled);
    ("_handle_customer_registered", _handle_customer_registered);
    ("_handle_customer_profile_updated", _handle_customer_profile_updated);
    ("_handle_dealer_application_submitted", _handle_dealer_application_submitted);
    ("_handle_dealer_approved", _handle_dealer_approved);
    ("_handle_dealer_pricing_updated", _handle_dealer_pricing_updated);
    ("_handle_agent_decision_proposed", _handle_agent_decision_proposed);
    ("_handle_agent_decision_approved", _handle_agent_decision_approved);
    ("_handle_agent_decision_rejected", _handle_agent_decision_rejected) ].

(** [getattr(self, name, None)] *)
Fixpoint getattr (attrs : list (string * handler)) (name : string) : option handler :=
  match attrs with
  | [] => None
  | (n, h) :: attrs' => if String.eqb n name then Some h else getattr attrs' name
  end.

Definition handler_name (event : Event) : string :=
  "_handle_" +:+ PyStr.replace "." "_" (event_type event).

(** *** The status tracker *)

Definition _mark_event_processed (event_id : UUID) : M unit :=
  try_except
    (let* now := utcnow in
     execute (update_eq_id event_id (set_processed now)) ;;
     ret tt)
    (fun e => logger ERROR ("Failed to mark event " +:+ event_id +:+
                            " as processed: " +:+ exn_str e)).

Definition _mark_event_error (event_id : UUID) (error : string) : M unit :=
  try_except
    (execute (update_eq_id event_id (set_error error)) ;;
     ret tt)
    (fun e => logger ERROR ("Failed to mark event " +:+ event_id +:+
                            " with error: " +:+ exn_str e)).

(** *** [process_event]

    Inside the [try] block only the handler can raise (the status
    tracker never does, see [mark_event_processed_run]), and it does so
    before its descriptions are added to [operations_executed]: the
    [except] branch reports the list as it was created, empty. *)
Definition process_event (event : Event) : M EventProcessingResult :=
  record_call (CallProcessEvent (id event)) ;;
  let* start_time := time_time in
  let operations_executed : list string := [] in
  try_except
    (match getattr attributes (handler_name event) with
     | None =>
         logger WARNING ("No handler for event type: " +:+ event_type event) ;;
         let* now := time_time in
         ret {| event_id := id event;
                result_event_type := event_type event;
                success := false;
                error := Some ("No handler for event type: " +:+ event_type event);
                operations_executed := [];
                processing_time_ms := elapsed_ms now start_time |}
     | Some handler =>
         record_call (CallHandler (handler_name event) (id event)) ;;
         let* ops := lift (handler event) in
         let operations_executed := operations_executed ++ ops in
         _mark_event_processed (id event) ;;
         let* now := time_time in
         ret {| event_id := id event;
                result_event_type := event_type event;
                success := true;
                error := None;
                operations_executed := operations_executed;
                processing_time_ms := elapsed_ms now start_time |}
     end)
    (fun e =>
       logger ERROR ("Error processing event " +:+ id event +:+ ": " +:+ exn_str e) ;;
       _mark_event_error (id event) (exn_str e) ;;
       let* now := time_time in
       ret {| event_id := id event;
              result_event_type := event_type event;
              success := false;
              error := Some (exn_str e);
              operations_executed := operations_executed;
              processing_time_ms := elapsed_ms now start_time |}).

End EventProcessor.

(** ** The batch runner: [database_manager/services.py] *)

Module DatabaseManagerService.

(** The three variables the loops update. *)
Record tally : Type := {
  t_results : list EventProcessingResult;
  t_successful : Z;
  t_failed : Z
}.

Definition empty_tally : tally :=
  {| t_results := []; t_successful := 0; t_failed := 0 |}.

(** [results.append(result)], then one of the two counters goes up. *)
Definition count_result (result : EventProcessingResult) (t : tally) : tally :=
  {| t_results := t_results t ++ [result];
     t_successful := if success result then t_successful t + 1 else t_successful t;
     t_failed := if success result then t_failed t else t_failed t + 1 |}.

(** [for x in xs: body] over the loop variables. *)
Fixpoint for_each {A S : Type} (xs : list A) (body : A -> S -> M S) (s : S) : M S :=
  match xs with
  | [] => ret s
  | x :: xs' => let* s' := body x s in for_each xs' body s'
  end.

(** One turn of the loop of [process_pending_events]. *)
Definition process_next (event : Event) (t : tally) : M tally :=
  let* result := EventProcessor.process_event event in
  ret (count_result result t).

Definition process_pending_events (limit : nat) : M BatchProcessingResult :=
  let* start_time := time_time in
  try_except
    (let* events := EventService.get_unprocessed_events limit in
     match events with
     | [] =>
         ret {| total_events := 0; successful := 0; failed := 0;
                batch_processing_time_ms := 0; results := [] |}
     | _ =>
         let* t := for_each events process_next empty_tally in
         let* now := time_time in
         ret {| total_events := Z.of_nat (length events);
                successful := t_successful t;
                failed := t_failed t;
                batch_processing_time_ms := elapsed_ms now start_time;
                results := t_results t |}
     end)
    (fun e =>
       logger ERROR ("Error in batch processing: " +:+ exn_str e) ;;
       raise e).

(** One turn of the loop of [process_specific_events].  Inside its
    [try] block only the lookup can raise, before the loop variables
    are touched. *)
Definition process_one (force_reprocess : bool) (event_id : UUID) (t : tally) : M tally :=
  try_except
    (let* event := EventService.get_event_by_id event_id in
     if is_processed event && negb force_reprocess then
       logger WARNING ("Event " +:+ event_id +:+ " already processed, skipping") ;;
       ret t
     else
       let* result := EventProcessor.process_event event in
       ret (count_result result t))
    (fun e =>
       logger ERROR ("Error processing event " +:+ event_id +:+ ": " +:+ exn_str e) ;;
       ret {| t_results :=
                t_results t ++
                [{| event_id := event_id;
                    result_event_type := "unknown";
                    success := false;
                    error := Some (exn_str e);
                    operations_executed := [];
                    processing_time_ms := 0 |}];
              t_successful := t_successful t;
              t_failed := t_failed t + 1 |}).

Definition process_specific_events (event_ids : list UUID) (force_reprocess : bool)
  : M BatchProcessingResult :=
  let* start_time := time_time in
  try_except
    (let* t := for_each event_ids (process_one force_reprocess) empty_tally in
     let* now := time_time in
     ret {| total_events := Z.of_nat (length event_ids);
            successful := t_successful t;
            failed := t_failed t;
            batch_processing_time_ms := elapsed_ms now start_time;
            results := t_results t |})
    (fun e =>
       logger ERROR ("Error in specific event processing: " +:+ exn_str e) ;;
       raise e).

(** The static table behind [GET database-manager/mappings]. *)
Definition get_event_mappings : M (list EventToOperationMapping) :=
  ret [
    {| m_event_type := "product.created"; m_aggregate_type := "product";
       m_operations := ["Log product creation"];
       m_description := "Record product creation in event log" |};
    {| m_event_type := "product.updated"; m_aggregate_type := "product";
       m_operations := ["Log product update"];
       m_description := "Record product updates in event log" |};
    {| m_event_type := "product.price_changed"; m_aggregate_type := "product";
       m_operations := ["Log price change"; "Update price history"];
       m_description := "Record price changes for audit trail" |};
    {| m_event_type := "product.stock_updated"; m_aggregate_type := "product";
       m_operations := ["Log stock update"; "Check low stock alerts"];
       m_description := "Track inventory changes" |};
    {| m_event_type := "order.created"; m_aggregate_type := "order";
       m_operations := ["Log order creation"; "Reserve inventory"];
       m_description := "Process new order creation" |};
    {| m_event_type := "order.payment_received"; m_aggregate_type := "order";
       m_operations := ["Log payment"; "Update order status"];
       m_description := "Record payment transactions" |};
    {| m_event_type := "order.status_changed"; m_aggregate_type := "order";
       m_operations := ["Log status change"; "Update order status"];
       m_description := "Track order status transitions" |};
    {| m_event_type := "order.fulfilled"; m_aggregate_type := "order";
       m_operations := ["Log fulfillment"; "Send shipping notification"];
       m_description := "Process order fulfillment" |};
    {| m_event_type := "customer.registered"; m_aggregate_type := "customer";
       m_operations := ["Log registration"; "Send welcome email"];
       m_description := "Process new customer registration" |};
    {| m_event_type := "dealer.application_submitted"; m_aggregate_type := "dealer";
       m_operations := ["Log application"; "Notify staff"];
       m_description := "Process dealer application" |};
    {| m_event_type := "dealer.approved"; m_aggregate_type := "dealer";
       m_operations := ["Log approval"; "Activate account"; "Send notification"];
       m_description := "Process dealer approval" |};
    {| m_event_type := "agent.decision_proposed"; m_aggregate_type := "decision";
       m_operations := ["Log decision"; "Create approval task"];
       m_description := "Process AI agent decision proposal" |};
    {| m_event_type := "agent.decision_approved"; m_aggregate_type := "decision";
       m_operations := ["Log approval"; "Execute decision"];
       m_description := "Execute approved AI agent decision" |} ].

Definition get_stats : M DatabaseManagerStats :=
  try_except
    (let* event_stats := EventService.get_event_stats in
     let total_processed := EventService.processed_events event_stats in
     let total_events := EventService.total_events event_stats in
     let success_rate :=
       if 0 <? total_events
       then (inject_Z total_processed / inject_Z total_events * 100)%Q
       else 0%Q in
     let* recent_processed :=
       EventService.get_events
         {| q_event_type := None; q_aggregate_type := None; q_aggregate_id := None;
            q_created_by := None; q_correlation_id := None;
            q_is_processed := Some true; q_limit := 1; q_offset := 0 |} in
     let last_processed_at :=
       match recent_processed with
       | [] => None
       | e :: _ => processed_at e
       end in
     ret {| total_events_processed := total_processed;
            events_pending := EventService.unprocessed_events event_stats;
            events_failed := 0;
            success_rate := success_rate;
            average_processing_time_ms := 0;
            last_processed_at := last_processed_at;
            event_type_breakdown := EventService.event_types event_stats |})
    (fun e =>
       logger ERROR ("Error getting stats: " +:+ exn_str e) ;;
       raise e).

End DatabaseManagerService.

(** ** The routes: [events/routes.py], [database_manager/routes.py]

    A route is modelled from the point where its caller has been
    authenticated: its arguments are validated, and only then is the
    service called. *)

Definition response (A : Type) : Type :=
  (list EventCreate.field_error + outcome A)%type.

(** [Query(..., ge=lo, le=hi)] and [Query(..., ge=lo)] on an integer. *)
Definition check_between (name : string) (lo hi v : Z) : list EventCreate.field_error :=
  if v <? lo then
    [(name, ValueError ("Input should be greater than or equal to " +:+ pretty lo))]
  else if hi <? v then
    [(name, ValueError ("Input should be less than or equal to " +:+ pretty hi))]
  else [].

Definition check_at_least (name : string) (lo v : Z) : list EventCreate.field_error :=
  if v <? lo then
    [(name, ValueError ("Input should be greater than or equal to " +:+ pretty lo))]
  else [].

Definition serve {A} (errors : list EventCreate.field_error) (service : M A)
  : World -> response A * World :=
  fun w =>
    match errors with
    | [] => let (r, w') := service w in (inr r, w')
    | _ => (inl errors, w)
    end.

Module EventRoutes.

(** [GET events].  The route hands its [processed] argument to the query
    model under the name [processed]; the model has no field of that
    name and drops it, so [is_processed] keeps its default. *)
Definition get_events (event_type_ aggregate_type_ : option string)
           (aggregate_id_ : option UUID) (created_by_ : option string)
           (correlation_id_ : option UUID) (processed : option bool)
           (limit offset : Z) : World -> response (list Event) * World :=
  serve (check_between "limit" 1 1000 limit ++ check_at_least "offset" 0 offset)
        (EventService.get_events
           {| q_event_type := event_type_; q_aggregate_type := aggregate_type_;
              q_aggregate_id := aggregate_id_; q_created_by := created_by_;
              q_correlation_id := correlation_id_; q_is_processed := None;
              q_limit := Z.to_nat limit; q_offset := Z.to_nat offset |}).

(** [GET events/unprocessed] *)
Definition get_unprocessed_events (limit : Z) : World -> response (list Event) * World :=
  serve (check_between "limit" 1 1000 limit)
        (EventService.get_unprocessed_events (Z.to_nat limit)).

(** [PUT events/{id}/processing]: the error text has at most 1000
    characters. *)
Definition update_event_processing (event_id : UUID) (done : bool)
           (err : option string) : World -> response Event * World :=
  serve (match err with
         | Some msg => EventCreate.errors_of "processing_error"
                         (EventCreate.check_length 0 1000 msg)
         | None => []
         end)
        (EventService.update_event_processing event_id
           {| u_is_processed := done; u_processing_error := err |}).

End EventRoutes.

Module DatabaseManagerRoutes.

(** [POST database-manager/process] *)
Definition process_pending_events (limit : Z)
  : World -> response BatchProcessingResult * World :=
  serve (check_between "limit" 1 1000 limit)
        (DatabaseManagerService.process_pending_events (Z.to_nat limit)).

(** [POST database-manager/process-specific]: [ManualProcessRequest]
    wants at least one id. *)
Definition process_specific_events (event_ids : list UUID) (force_reprocess : bool)
  : World -> response BatchProcessingResult * World :=
  serve (match event_ids with
         | [] => [("event_ids",
                   ValueError "List should have at least 1 item after validation, not 0")]
         | _ => []
         end)
        (DatabaseManagerService.process_specific_events event_ids force_reprocess).

End DatabaseManagerRoutes.

(** * Vocabulary of the properties *)

Import EventProcessor.
Import DatabaseManagerService.



Definition has_handler (event : Event) : bool :=
  match getattr attributes (handler_name event) with
  | Some _ => true
  | None => false
  end.

(** The calls one run of [process_event] adds to the trace. *)
Definition calls_of (event : Event) : list call :=
  CallProcessEvent (id event) ::
  (if has_handler event then [CallHandler (handler_name event) (id event)] else []).

(** Two worlds with the same clock and the same failing calls. *)
Definition same_oracles (w w' : World) : Prop :=
  clock w' = clock w /\ db_fault w' = db_fault w.

(** No database call fails, now or later. *)
Definition reliable (w : World) : Prop := forall k, db_fault w k = None.

(** What [get_unprocessed_events limit] reads when the call goes through. *)
Definition pending (limit : nat) (w : World) : list Event :=
  take limit (order_asc (List.filter EventService.unprocessed (events w))).

(** Counting the results of a batch. *)
Definition successes (rs : list EventProcessingResult) : Z :=
  Z.of_nat (length (List.filter success rs)).

Definition failures (rs : list EventProcessingResult) : Z :=
  Z.of_nat (length (List.filter (fun r => negb (success r)) rs)).

(** The loop variables after some more results were counted. *)
Definition tally_plus (t : tally) (rs : list EventProcessingResult) : tally :=
  {| t_results := t_results t ++ rs;
     t_successful := t_successful t + successes rs;
     t_failed := t_failed t + failures rs |}.

(** Every row still unprocessed in [rows'] was an unprocessed row of
    [rows] whose id is none of [ids]. *)
Definition left_pending (ids : list UUID) (rows rows' : list Event) : Prop :=
  Forall (fun e' => is_processed e' = false ->
                    exists e, e ∈ rows /\ is_processed e = false /\
                              id e = id e' /\ id e ∉ ids) rows'.

Definition zero_result : BatchProcessingResult :=
  {| total_events := 0; successful := 0; failed := 0;
     batch_processing_time_ms := 0; results := [] |}.

(** Events that failed: the ones that carry a processing error. *)
Definition failed_events (rows : list Event) : list Event :=
  List.filter (fun e => bool_decide (is_Some (processing_error e))) rows.

(** The query [get_stats] sends for the last processed event. *)
Definition last_processed_query : EventStreamQuery :=
  {| q_event_type := None; q_aggregate_type := None; q_aggregate_id := None;
     q_created_by := None; q_correlation_id := None;
     q_is_processed := Some true; q_limit := 1; q_offset := 0 |}.

(** The format [aggregate.action]: exactly one dot, between two
    non-empty parts. *)
Definition dotted_pair (v : string) : Prop :=
  exists a b, v = a +:+ "." +:+ b /\ a <> "" /\ b <> "" /\
              PyStr.contains "." a = false /\ PyStr.contains "." b = false.

Definition starts_with (p v : string) : Prop := exists rest, v = p +:+ rest.

Definition actor_prefixed (v : string) : Prop :=
  starts_with "user:" v \/ starts_with "agent:" v \/ starts_with "system" v.

Definition accepted {A} (o : outcome A) : Prop := exists a, o = Return a.

(** A computation that leaves the table and the trace of calls as they
    were, whatever it answers. *)
Definition readonly {A} (m : M A) : Prop :=
  forall w, events (snd (m w)) = events w /\ trace (snd (m w)) = trace w.

(** An event without its processing status. *)
Definition frozen (e : Event) : Event :=
  EventService.set_processing false None None e.

(** [e'] is [e] after some status writes, each of them accounted for by
    one of the results [rs]: a success result of this event for a write
    that marks it processed, a failure result of this event, carrying
    the error text, for a write that marks it failed. *)
Inductive status_path (rs : list EventProcessingResult) (e : Event) : Event -> Prop :=
| path_same : status_path rs e e
| path_processed e' now r :
    status_path rs e e' -> r ∈ rs -> success r = true -> event_id r = id e ->
    status_path rs e (set_processed now e')
| path_error e' msg r :
    status_path rs e e' -> r ∈ rs -> success r = false -> event_id r = id e ->
    error r = Some msg ->
    status_path rs e (set_error msg e').

(** The columns of a row that are no part of its processing status are
    those of another row. *)
Definition other_columns_kept (e e' : Event) : Prop :=
  id e' = id e /\ event_number e' = event_number e /\
  event_type e' = event_type e /\ aggregate_type e' = aggregate_type e /\
  aggregate_id e' = aggregate_id e /\ data e' = data e /\
  metadata e' = metadata e /\ created_by e' = created_by e /\
  user_id e' = user_id e /\ created_at e' = created_at e /\
  event_version e' = event_version e /\ correlation_id e' = correlation_id e /\
  causation_id e' = causation_id e /\ idempotency_key e' = idempotency_key e.

(** A processed event carries no error. *)
Definition clean (e : Event) : Prop :=
  is_processed e = true -> processing_error e = None.

(** The names of the handlers that take the length of a payload entry. *)
Definition measuring_handlers : list string :=
  ["_handle_product_updated"; "_handle_order_created";
   "_handle_customer_profile_updated"].

(** What a handler can answer: one description, or the error of [len]
    on a payload entry that has no length, which only three handlers
    can raise. *)
Definition handler_answers (entry : string * handler) : Prop :=
  forall event,
    (exists op, snd entry event = Return [op]) \/
    (fst entry ∈ measuring_handlers /\
     exists v, snd entry event =
               Raise (TypeError ("object of type '" +:+ PyVal.type_name v +:+
                                 "' has no len()"))).

(** How many rows have [key] in the column [field]. *)
Definition occurrences (field : Event -> string) (key : string) (rows : list Event) : Z :=
  Z.of_nat (length (List.filter (fun e => String.eqb (field e) key) rows)).

(** The event types the mapping table documents. *)
Definition documented (w : World) : list string :=
  match fst (get_event_mappings w) with
  | Return mappings => List.map m_event_type mappings
  | Raise _ => []
  end.

(** The number of rows waiting to be processed. *)
Definition backlog (rows : list Event) : Z :=
  Z.of_nat (length (List.filter EventService.unprocessed rows)).

(** An event whose row is in the table and waits to be processed. *)
Definition waiting (rows : list Event) (e : Event) : Prop :=
  (exists r, r ∈ rows /\ id r = id e) /\
  (forall r, r ∈ rows -> id r = id e -> is_processed r = false).

(** ** Sample data *)

Module Sample.

Definition row (i : UUID) (n : Z) (ty : string) (payload : pydict)
           (done : bool) (err : option string) : Event :=
  {| id := i; event_number := n; event_type := ty;
     aggregate_type := "product";
     aggregate_id := "7d3c2a8e-0b1f-4c6d-9e5a-2f4b6c8d0e1f";
     data := payload; metadata := []; created_by := "system";
     user_id := None; created_at := 0%Q; event_version := 1;
     is_processed := done; processed_at := None; processing_error := err;
     correlation_id := None; causation_id := None; idempotency_key := None |}.

(** A world whose clock ticks once a second and whose database never
    fails. *)
Definition world (rows : list Event) : World :=
  {| events := rows; clock := fun k => inject_Z (Z.of_nat k); ticks := 0;
     db_fault := fun _ => None; db_calls := 0; log := []; trace := [] |}.

Definition pump : Event :=
  row "e-0001" 1 "product.created" [("sku", JStr "PUMP-001")] false None.

Definition sparkle : Event :=
  row "e-0002" 2 "widget.sparkled" [] false None.

Definition bad_update : Event :=
  row "e-0003" 3 "product.updated" [("changes", JInt 5)] false
      (Some "an earlier failure").

Definition done_already : Event :=
  row "e-0004" 4 "order.created" [] true None.

(** Two events of one product, stored out of order. *)
Definition price_changed : Event :=
  row "e-0011" 1 "product.price_changed" [("new_price", JInt 120)] false None.

Definition stock_updated : Event :=
  row "e-0012" 2 "product.stock_updated" [("new_quantity", JInt 7)] false None.

(** A type that is not the name of any handled event, but whose dots
    and underscores fall on a handler's name. *)
Definition alias : Event :=
  row "e-0005" 5 "product_price.changed" [] false None.

(** One event processed, one event that failed. *)
Definition mixed : list Event := [done_already; bad_update].

(** Two processed events: the one with the larger number was processed
    first. *)
Definition out_of_order : list Event :=
  [set_processed (inject_Z 50) (row "e-0021" 1 "order.created" [] false None);
   set_processed (inject_Z 10) (row "e-0022" 2 "order.fulfilled" [] false None)].

Definition long_type : string :=
  "a." +:+ String.concat "" (replicate 99 "b").

Definition long_actor : string :=
  "user:" +:+ String.concat "" (replicate 96 "x").

Definition body (ty actor : string) : EventCreate.t :=
  {| EventCreate.event_type := ty; EventCreate.aggregate_type := "product";
     EventCreate.aggregate_id := "7d3c2a8e-0b1f-4c6d-9e5a-2f4b6c8d0e1f";
     EventCreate.data := []; EventCreate.metadata := None;
     EventCreate.created_by := actor; EventCreate.correlation_id := None;
     EventCreate.causation_id := None; EventCreate.idempotency_key := None |}.

End Sample.

(** * Properties *)

(** ** The Python primitives on small inputs *)

Example split_examples :
  PyStr.split "." "product.created" = ["product"; "created"] /\
  PyStr.split "." "a.b." = ["a"; "b"; ""] /\
  PyStr.split "." ".b" = [""; "b"] /\
  PyStr.split "." "" = [""] /\
  PyStr.split "." "nodot" = ["nodot"].
Proof. by repeat split. Qed.

Example str_examples :
  PyVal.str (JStr "PUMP-001") = "PUMP-001" /\
  PyVal.str JNull = "None" /\
  PyVal.str (JInt (-12)) = "-12" /\
  PyVal.str (JBool true) = "True" /\
  PyVal.str (JList [JInt 3; JStr "x'y"; JNull]) =
    "[3, " +:+ String PyStr.double_quote ("x'y" +:+ String PyStr.double_quote ", None]") /\
  PyVal.str (JDict [("a", JFloat "1.5"); ("b\", JStr "c")]) = "{'a': 1.5, 'b\\': 'c'}".
Proof. by repeat split. Qed.

Example validation_examples :
  EventCreate.field_event_type "Product.Created" = Return "product.created" /\
  EventCreate.field_event_type "a..b" =
    Raise (ValueError "event_type must have exactly one dot (aggregate.action)") /\
  EventCreate.field_event_type "ab." =
    Raise (ValueError "event_type parts cannot be empty") /\
  EventCreate.field_event_type "ab" =
    Raise (ValueError "String should have at least 3 characters") /\
  EventCreate.field_created_by "systematic" = Return "systematic" /\
  EventCreate.field_created_by "User:1" =
    Raise (ValueError "created_by must start with user:, agent:, or system") /\
  EventCreate.field_created_by Sample.long_actor =
    Raise (ValueError "String should have at most 100 characters").
Proof. by repeat split. Qed.

(** The handler is found under the type with its dots turned into
    underscores, so a type spelt with an underscore in place of the
    dot, or the other way round, finds the same handler. *)
Example handler_lookup_examples :
  handler_name Sample.pump = "_handle_product_created" /\
  has_handler Sample.pump = true /\
  has_handler Sample.sparkle = false /\
  handler_name Sample.alias = "_handle_product_price_changed" /\
  has_handler Sample.alias = true.
Proof. by repeat split. Qed.

Lemma same_oracles_refl w : same_oracles w w.
Proof. by split. Qed.

Lemma same_oracles_trans w1 w2 w3 :
  same_oracles w1 w2 -> same_oracles w2 w3 -> same_oracles w1 w3.
Proof. intros [? ?] [? ?]. split; congruence. Qed.

Ltac run_monad :=
  unfold try_except, bind, lift, ret, raise, utcnow, time_time, execute, select,
    update_eq_id, logger, record_call; cbn.

(** ** The status tracker *)

Lemma mark_event_processed_run (event_id : UUID) (w : World) :
  exists w', _mark_event_processed event_id w = (Return tt, w') /\
    same_oracles w w' /\ trace w' = trace w /\
    ticks w' = S (ticks w) /\ db_calls w' = S (db_calls w) /\
    match db_fault w (db_calls w) with
    | None =>
        events w' = patched event_id (set_processed (clock w (ticks w))) (events w) /\
        log w' = log w
    | Some msg =>
        events w' = events w /\
        log w' = log w ++ [{| level := ERROR;
                              message := "Failed to mark event " +:+ event_id +:+
                                         " as processed: " +:+ msg |}]
    end.
Proof.
  unfold _mark_event_processed. run_monad.
  destruct (db_fault w (db_calls w)) eqn:Hf; cbn;
    eexists; (split; [reflexivity|]); cbn; rewrite ?Hf; by repeat split.
Qed.

Lemma mark_event_error_run (event_id : UUID) (error : string) (w : World) :
  exists w', _mark_event_error event_id error w = (Return tt, w') /\
    same_oracles w w' /\ trace w' = trace w /\
    ticks w' = ticks w /\ db_calls w' = S (db_calls w) /\
    match db_fault w (db_calls w) with
    | None =>
        events w' = patched event_id (set_error error) (events w) /\
        log w' = log w
    | Some msg =>
        events w' = events w /\
        log w' = log w ++ [{| level := ERROR;
                              message := "Failed to mark event " +:+ event_id +:+
                                         " with error: " +:+ msg |}]
    end.
Proof.
  unfold _mark_event_error. run_monad.
  destruct (db_fault w (db_calls w)) eqn:Hf; cbn;
    eexists; (split; [reflexivity|]); cbn; rewrite ?Hf; by repeat split.
Qed.

(** ** One run of the dispatcher, case by case *)

Lemma process_event_run (event : Event) (w : World) :
  exists r w', process_event event w = (Return r, w') /\
    event_id r = id event /\ result_event_type r = event_type event /\
    same_oracles w w' /\
    trace w' = trace w ++ calls_of event /\
    match getattr attributes (handler_name event) with
    | None =>
        success r = false /\
        error r = Some ("No handler for event type: " +:+ event_type event) /\
        operations_executed r = [] /\
        processing_time_ms r = elapsed_ms (clock w (S (ticks w))) (clock w (ticks w)) /\
        events w' = events w /\ db_calls w' = db_calls w /\
        ticks w' = S (S (ticks w)) /\
        log w' = log w ++ [{| level := WARNING;
                              message := "No handler for event type: " +:+ event_type event |}]
    | Some handler =>
        match handler event with
        | Return ops =>
            success r = true /\ error r = None /\ operations_executed r = ops /\
            processing_time_ms r =
              elapsed_ms (clock w (S (S (ticks w)))) (clock w (ticks w)) /\
            db_calls w' = S (db_calls w) /\ ticks w' = S (S (S (ticks w))) /\
            events w' = match db_fault w (db_calls w) with
                        | None => patched (id event)
                                    (set_processed (clock w (S (ticks w)))) (events w)
                        | Some _ => events w
                        end
        | Raise e =>
            success r = false /\ error r = Some (exn_str e) /\
            operations_executed r = [] /\
            processing_time_ms r = elapsed_ms (clock w (S (ticks w))) (clock w (ticks w)) /\
            db_calls w' = S (db_calls w) /\ ticks w' = S (S (ticks w)) /\
            events w' = match db_fault w (db_calls w) with
                        | None => patched (id event) (set_error (exn_str e)) (events w)
                        | Some _ => events w
                        end
        end
    end.
Proof.
  unfold process_event, calls_of, has_handler.
  destruct (getattr attributes (handler_name event)) as [h|] eqn:Hh.
  - destruct (h event) as [ops|e] eqn:He.
    + unfold _mark_event_processed. run_monad; rewrite ?He; cbn.
      destruct (db_fault w (db_calls w)) eqn:Hf; cbn;
        do 2 eexists; (split; [reflexivity|]); cbn;
        rewrite <- ?app_assoc; by repeat split.
    + unfold _mark_event_error. run_monad; rewrite ?He; cbn.
      destruct (db_fault w (db_calls w)) eqn:Hf; cbn;
        do 2 eexists; (split; [reflexivity|]); cbn;
        rewrite <- ?app_assoc; by repeat split.
  - run_monad. do 2 eexists; (split; [reflexivity|]); cbn.
    rewrite <- ?app_assoc. by repeat split.
Qed.

Lemma set_processed_fields (now : instant) (e : Event) :
  is_processed (set_processed now e) = true /\
  processed_at (set_processed now e) = Some now /\
  processing_error (set_processed now e) = None /\
  id (set_processed now e) = id e /\
  event_number (set_processed now e) = event_number e /\
  event_type (set_processed now e) = event_type e /\
  data (set_processed now e) = data e.
Proof. by repeat split. Qed.

Lemma set_error_fields (msg : string) (e : Event) :
  is_processed (set_error msg e) = false /\
  processing_error (set_error msg e) = Some msg /\
  processed_at (set_error msg e) = processed_at e /\
  id (set_error msg e) = id e /\
  event_number (set_error msg e) = event_number e /\
  event_type (set_error msg e) = event_type e /\
  data (set_error msg e) = data e.
Proof. by repeat split. Qed.

Lemma elem_of_patched (event_id : UUID) (patch : Event -> Event)
      (rows : list Event) (e' : Event) :
  e' ∈ patched event_id patch rows <->
  exists e, e ∈ rows /\ e' = if String.eqb (id e) event_id then patch e else e.
Proof.
  unfold patched. rewrite list_elem_of_In, in_map_iff. split.
  - intros (e & <- & Hin). exists e. by rewrite list_elem_of_In.
  - intros (e & Hin & ->). exists e. by rewrite <- list_elem_of_In.
Qed.

Lemma Forall2_patched (P : Event -> Event -> Prop) (event_id : UUID)
      (patch : Event -> Event) (rows : list Event) :
  (forall e, P e (if String.eqb (id e) event_id then patch e else e)) ->
  Forall2 P rows (patched event_id patch rows).
Proof.
  intros H. unfold patched. apply Forall2_fmap_r, Forall_Forall2_diag, Forall_forall.
  intros e _. apply H.
Qed.

(** C6.  The status tracker.  [_mark_event_processed] answers normally in
    every world; when its database call goes through, every row with
    the given id has [is_processed] true, the current time as
    [processed_at] and no [processing_error], its other columns being
    kept, and every other row is left as it was; when the call fails the
    table is left as it was and one error line is logged.
    [_mark_event_error] answers normally in every world; when its call
    goes through, every row with the given id has [is_processed] false
    and the error text as [processing_error], its [processed_at] and its
    other columns being kept, and every other row is left as it was;
    when it fails the table is left as it was and one error line is
    logged.  And [process_event] answers a result in every world, whose
    success flag is decided by the handler alone, whatever happens to
    the status write. *)
Theorem status_tracker_contract :
  (forall (event_id : UUID) (w : World),
      exists w', _mark_event_processed event_id w = (Return tt, w') /\
        match db_fault w (db_calls w) with
        | None =>
            Forall2 (fun e e' =>
                       (id e <> event_id -> e' = e) /\
                       (id e = event_id ->
                        is_processed e' = true /\
                        processed_at e' = Some (clock w (ticks w)) /\
                        processing_error e' = None /\
                        other_columns_kept e e'))
                    (events w) (events w') /\
            log w' = log w
        | Some msg =>
            events w' = events w /\
            log w' = log w ++ [{| level := ERROR;
                                  message := "Failed to mark event " +:+ event_id +:+
                                             " as processed: " +:+ msg |}]
        end) /\
  (forall (event_id : UUID) (error : string) (w : World),
      exists w', _mark_event_error event_id error w = (Return tt, w') /\
        match db_fault w (db_calls w) with
        | None =>
            Forall2 (fun e e' =>
                       (id e <> event_id -> e' = e) /\
                       (id e = event_id ->
                        is_processed e' = false /\
                        processing_error e' = Some error /\
                        processed_at e' = processed_at e /\
                        other_columns_kept e e'))
                    (events w) (events w') /\
            log w' = log w
        | Some msg =>
            events w' = events w /\
            log w' = log w ++ [{| level := ERROR;
                                  message := "Failed to mark event " +:+ event_id +:+
                                             " with error: " +:+ msg |}]
        end) /\
  (forall (event : Event) (w : World),
      exists r w', process_event event w = (Return r, w') /\
        success r = match getattr attributes (handler_name event) with
                    | Some handler => match handler event with
                                      | Return _ => true
                                      | Raise _ => false
                                      end
                    | None => false
                    end).
Proof.
  split; [|split].
  - intros event_id w.
    destruct (mark_event_processed_run event_id w) as (w' & Hrun & _ & _ & _ & _ & H).
    exists w'. split; [done|].
    destruct (db_fault w (db_calls w)); [done|]. destruct H as [-> Hlog].
    split; [|done]. apply Forall2_patched. intros e.
    destruct (String.eqb_spec (id e) event_id) as [Hid|Hid];
      (split; [intros Hne|intros Heq]); try done; by repeat split.
  - intros event_id error w.
    destruct (mark_event_error_run event_id error w) as (w' & Hrun & _ & _ & _ & _ & H).
    exists w'. split; [done|].
    destruct (db_fault w (db_calls w)); [done|]. destruct H as [-> Hlog].
    split; [|done]. apply Forall2_patched. intros e.
    destruct (String.eqb_spec (id e) event_id) as [Hid|Hid];
      (split; [intros Hne|intros Heq]); try done; by repeat split.
  - intros event w.
    destruct (process_event_run event w) as (r & w' & Hrun & _ & _ & _ & _ & H).
    exists r, w'. split; [done|].
    destruct (getattr attributes (handler_name event)) as [h|]; [|by destruct H].
    destruct (h event); by destruct H.
Qed.

(** The tracker on a table of two events, the first of which failed
    before: marking it processed stamps it and clears its error, marking
    it failed stores the new text; the second row is not touched. *)
Lemma status_tracker_contract_witness :
  (exists w',
      _mark_event_processed "e-0003" (Sample.world [Sample.bad_update; Sample.pump]) =
        (Return tt, w') /\
      events w' =
        [{| id := "e-0003"; event_number := 3; event_type := "product.updated";
            aggregate_type := "product";
            aggregate_id := "7d3c2a8e-0b1f-4c6d-9e5a-2f4b6c8d0e1f";
            data := [("changes", JInt 5)]; metadata := []; created_by := "system";
            user_id := None; created_at := 0%Q; event_version := 1;
            is_processed := true; processed_at := Some 0%Q; processing_error := None;
            correlation_id := None; causation_id := None; idempotency_key := None |};
         Sample.pump]) /\
  (exists w',
      _mark_event_error "e-0003" "no such column"
        (Sample.world [Sample.bad_update; Sample.pump]) = (Return tt, w') /\
      events w' = [Sample.row "e-0003" 3 "product.updated" [("changes", JInt 5)] false
                     (Some "no such column");
                   Sample.pump]).
Proof.
  split.
  - destruct (proj1 status_tracker_contract "e-0003"
                (Sample.world [Sample.bad_update; Sample.pump])) as (w' & Hrun & _).
    exists w'. split; [exact Hrun|].
    apply (f_equal snd) in Hrun. cbn [snd] in Hrun. by rewrite <- Hrun.
  - destruct (proj1 (proj2 status_tracker_contract) "e-0003" "no such column"
                (Sample.world [Sample.bad_update; Sample.pump])) as (w' & Hrun & _).
    exists w'. split; [exact Hrun|].
    apply (f_equal snd) in Hrun. cbn [snd] in Hrun. by rewrite <- Hrun.
Defined.

Lemma result_eta (r : EventProcessingResult) :
  r = {| event_id := event_id r; result_event_type := result_event_type r;
         success := success r; error := error r;
         operations_executed := operations_executed r;
         processing_time_ms := processing_time_ms r |}.
Proof. by destruct r. Qed.

(** C1.  When the event's type has a handler and the handler answers its
    descriptions, [process_event] answers a success result that carries
    exactly these descriptions and the time elapsed between its first
    and its last reading of the clock, in milliseconds: the difference
    of the two readings, times 1000.  It reads the clock three times,
    the tracker taking the reading in between, and calls the status
    tracker once: when that write goes through, every row of the event
    is processed, stamped and free of error.  For an event of type
    [product.created] whose payload has [sku] equal to PUMP-001, the
    descriptions are the single line [Logged product creation: PUMP-001]. *)
Theorem process_event_success
        (event : Event) (w : World) (h : handler) (ops : list string) :
  getattr attributes (handler_name event) = Some h ->
  h event = Return ops ->
  exists w',
    process_event event w =
      (Return {| event_id := id event;
                 result_event_type := event_type event;
                 success := true;
                 error := None;
                 operations_executed := ops;
                 processing_time_ms :=
                   ((clock w (S (S (ticks w))) - clock w (ticks w)) * 1000)%Q |},
       w') /\
    ticks w' = S (S (S (ticks w))) /\
    trace w' = trace w ++ [CallProcessEvent (id event);
                           CallHandler (handler_name event) (id event)] /\
    db_calls w' = S (db_calls w) /\
    events w' =
      match db_fault w (db_calls w) with
      | None => patched (id event) (set_processed (clock w (S (ticks w)))) (events w)
      | Some _ => events w
      end /\
    (db_fault w (db_calls w) = None ->
     Forall (fun e => id e = id event ->
                      is_processed e = true /\
                      processed_at e = Some (clock w (S (ticks w))) /\
                      processing_error e = None) (events w')) /\
    (event_type event = "product.created" ->
     PyVal.dict_get (data event) "sku" JNull = JStr "PUMP-001" ->
     ops = ["Logged product creation: PUMP-001"]).
Proof.
  intros Hh He.
  destruct (process_event_run event w) as (r & w' & Hrun & Hid & Hty & _ & Htr & H).
  rewrite Hh, He in H. destruct H as (Hs & Herr & Hops & Ht & Hdb & Hticks & Hev).
  exists w'. rewrite Hrun, (result_eta r), Hid, Hty, Hs, Herr, Hops, Ht.
  split; [done|]. split; [done|]. split; [|split; [done|split; [done|split]]].
  - rewrite Htr. unfold calls_of, has_handler. by rewrite Hh.
  - intros Hok. rewrite Hev, Hok, Forall_forall. intros e' Hin Heq.
    apply elem_of_patched in Hin as (e & _ & ->).
    destruct (String.eqb (id e) (id event)) eqn:Hb; [done|].
    apply String.eqb_neq in Hb. by destruct Hb.
  - intros Hpc Hsku. unfold handler_name in Hh. rewrite Hpc in Hh.
    injection Hh as <-. unfold _handle_product_created, get in He.
    rewrite Hsku in He. by injection He as <-.
Qed.

(** The scenario of the specification: a [product.created] event with
    sku PUMP-001 goes through the dispatcher. *)
Lemma process_event_success_witness :
  getattr attributes (handler_name Sample.pump) = Some _handle_product_created /\
  _handle_product_created Sample.pump = Return ["Logged product creation: PUMP-001"] /\
  exists w',
    process_event Sample.pump (Sample.world [Sample.pump]) =
      (Return {| event_id := "e-0001";
                 result_event_type := "product.created";
                 success := true;
                 error := None;
                 operations_executed := ["Logged product creation: PUMP-001"];
                 processing_time_ms := 2000%Q |},
       w') /\
    List.map is_processed (events w') = [true].
Proof.
  split; [reflexivity|]. split; [reflexivity|].
  destruct (process_event_success Sample.pump (Sample.world [Sample.pump])
              _handle_product_created ["Logged product creation: PUMP-001"]
              eq_refl eq_refl) as (w' & Hrun & _ & _ & _ & Hev & _).
  exists w'. split; [exact Hrun|]. rewrite Hev. reflexivity.
Defined.

Example scenario_product_created :
  let '(r, w') := DatabaseManagerService.process_pending_events 100
                    (Sample.world [Sample.pump]) in
  (exists b, r = Return b /\ total_events b = 1 /\ successful b = 1 /\ failed b = 0 /\
             List.map success (results b) = [true] /\
             List.map operations_executed (results b) =
               [["Logged product creation: PUMP-001"]]) /\
  List.map is_processed (events w') = [true].
Proof. vm_compute. split; [|done]. eexists. by repeat split. Qed.

(** C2, with the error text as the specification words it: it does not
    hold.  For the unknown type [widget.sparkled] the error of the
    result is not the text [no handler for event type: widget.sparkled];
    the text the code writes starts with a capital letter. *)
Lemma no_handler_error_text_differs :
  ~ (forall (event : Event) (w : World),
        getattr attributes (handler_name event) = None ->
        exists r w',
          process_event event w = (Return r, w') /\
          success r = false /\
          operations_executed r = [] /\
          error r = Some ("no handler for event type: " +:+ event_type event) /\
          events w' = events w).
Proof.
  intros H.
  destruct (H Sample.sparkle (Sample.world [Sample.sparkle]) eq_refl)
    as (r & w' & Hrun & _ & _ & Herr & _).
  destruct (process_event_run Sample.sparkle (Sample.world [Sample.sparkle]))
    as (r0 & w0 & Hrun0 & _ & _ & _ & _ & Hcase).
  rewrite Hrun0 in Hrun. injection Hrun as <- _.
  destruct Hcase as (_ & Herr0 & _). rewrite Herr0 in Herr. discriminate.
Qed.

(** C2, amended.  When the lookup of the handler, under the event's
    type with its dots turned into underscores, finds nothing,
    [process_event] answers normally a failure result with no
    description and the error text [No handler for event type: ]
    followed by the type; no handler is called, no database call is made
    and the table is left as it was, so that an unprocessed event stays
    unprocessed. *)
Theorem process_event_no_handler (event : Event) (w : World) :
  getattr attributes (handler_name event) = None ->
  exists w',
    process_event event w =
      (Return {| event_id := id event;
                 result_event_type := event_type event;
                 success := false;
                 error := Some ("No handler for event type: " +:+ event_type event);
                 operations_executed := [];
                 processing_time_ms :=
                   elapsed_ms (clock w (S (ticks w))) (clock w (ticks w)) |},
       w') /\
    events w' = events w /\
    db_calls w' = db_calls w /\
    trace w' = trace w ++ [CallProcessEvent (id event)].
Proof.
  intros Hh.
  destruct (process_event_run event w) as (r & w' & Hrun & Hid & Hty & _ & Htr & H).
  rewrite Hh in H. destruct H as (Hs & Herr & Hops & Ht & Hev & Hdb & _).
  exists w'. rewrite Hrun, (result_eta r), Hid, Hty, Hs, Herr, Hops, Ht.
  repeat split; try done.
  rewrite Htr. unfold calls_of, has_handler. by rewrite Hh.
Qed.

Lemma process_event_no_handler_witness :
  getattr attributes (handler_name Sample.sparkle) = None /\
  exists w',
    process_event Sample.sparkle (Sample.world [Sample.sparkle]) =
      (Return {| event_id := "e-0002";
                 result_event_type := "widget.sparkled";
                 success := false;
                 error := Some "No handler for event type: widget.sparkled";
                 operations_executed := [];
                 processing_time_ms := elapsed_ms (inject_Z 1) (inject_Z 0) |},
       w') /\
    events w' = [Sample.sparkle].
Proof.
  split; [reflexivity|].
  destruct (process_event_no_handler Sample.sparkle (Sample.world [Sample.sparkle])
              eq_refl) as (w' & Hrun & Hev & _).
  exists w'. split; [exact Hrun | exact Hev].
Defined.

(** C3.  When the handler of the event raises, [process_event] does not
    raise: it answers a failure result whose error is the text of the
    exception, after sending one status write, which, when it goes
    through, leaves every row of the event unprocessed and carrying that
    text in place of whatever error it carried, its processing time
    being kept; the event is then still among the unprocessed ones. *)
Theorem process_event_handler_raises
        (event : Event) (w : World) (h : handler) (e : exn) :
  getattr attributes (handler_name event) = Some h ->
  h event = Raise e ->
  exists w',
    process_event event w =
      (Return {| event_id := id event;
                 result_event_type := event_type event;
                 success := false;
                 error := Some (exn_str e);
                 operations_executed := [];
                 processing_time_ms :=
                   elapsed_ms (clock w (S (ticks w))) (clock w (ticks w)) |},
       w') /\
    db_calls w' = S (db_calls w) /\
    events w' =
      match db_fault w (db_calls w) with
      | None => patched (id event) (set_error (exn_str e)) (events w)
      | Some _ => events w
      end /\
    (db_fault w (db_calls w) = None ->
     Forall (fun row => id row = id event ->
                        is_processed row = false /\
                        processing_error row = Some (exn_str e) /\
                        EventService.unprocessed row = true) (events w') /\
     List.map processed_at (events w') = List.map processed_at (events w)).
Proof.
  intros Hh He.
  destruct (process_event_run event w) as (r & w' & Hrun & Hid & Hty & _ & Htr & H).
  rewrite Hh, He in H. destruct H as (Hs & Herr & Hops & Ht & Hdb & _ & Hev).
  exists w'. rewrite Hrun, (result_eta r), Hid, Hty, Hs, Herr, Hops, Ht.
  split; [done|]. split; [done|]. split; [done|].
  intros Hok. rewrite Hev, Hok. split.
  - rewrite Forall_forall. intros e' Hin Heq.
    apply elem_of_patched in Hin as (e0 & _ & ->).
    destruct (String.eqb (id e0) (id event)) eqn:Hb; [done|].
    apply String.eqb_neq in Hb. by destruct Hb.
  - unfold patched. rewrite List.map_map. apply List.map_ext.
    intros a. by destruct (String.eqb (id a) (id event)).
Qed.

(** A [product.updated] event whose [changes] entry is a number: taking
    its length raises, and the error replaces the one the row carried. *)
Lemma process_event_handler_raises_witness :
  getattr attributes (handler_name Sample.bad_update) = Some _handle_product_updated /\
  _handle_product_updated Sample.bad_update =
    Raise (TypeError "object of type 'int' has no len()") /\
  exists w',
    process_event Sample.bad_update (Sample.world [Sample.bad_update]) =
      (Return {| event_id := "e-0003";
                 result_event_type := "product.updated";
                 success := false;
                 error := Some "object of type 'int' has no len()";
                 operations_executed := [];
                 processing_time_ms := elapsed_ms (inject_Z 1) (inject_Z 0) |},
       w') /\
    List.map processing_error (events w') = [Some "object of type 'int' has no len()"] /\
    List.map is_processed (events w') = [false].
Proof.
  split; [reflexivity|]. split; [reflexivity|].
  destruct (process_event_handler_raises Sample.bad_update
              (Sample.world [Sample.bad_update]) _handle_product_updated
              (TypeError "object of type 'int' has no len()") eq_refl eq_refl)
    as (w' & Hrun & _ & Hev & _).
  exists w'. split; [exact Hrun|]. rewrite Hev. split; reflexivity.
Defined.

(** ** The loops of the batch runner *)

Lemma for_each_app {A S : Type} (xs ys : list A) (body : A -> S -> M S) (s : S) (w : World) :
  for_each (xs ++ ys) body s w =
  (let* s' := for_each xs body s in for_each ys body s') w.
Proof.
  revert s w. induction xs as [|x xs IH]; intros s w; cbn; [done|].
  unfold bind in *. destruct (body x s w) as [[s'|e] w']; [|done].
  by rewrite IH.
Qed.

Lemma successes_cons (r : EventProcessingResult) (rs : list EventProcessingResult) :
  successes (r :: rs) = (if success r then 1 else 0) + successes rs.
Proof. unfold successes. cbn. destruct (success r); cbn [length]; lia. Qed.

Lemma failures_cons (r : EventProcessingResult) (rs : list EventProcessingResult) :
  failures (r :: rs) = (if success r then 0 else 1) + failures rs.
Proof. unfold failures. cbn. destruct (success r); cbn [negb length]; lia. Qed.

Lemma successes_failures (rs : list EventProcessingResult) :
  successes rs + failures rs = Z.of_nat (length rs).
Proof.
  induction rs as [|r rs IH]; [done|].
  rewrite successes_cons, failures_cons. cbn [length]. destruct (success r); lia.
Qed.



Lemma tally_plus_nil (t : tally) : tally_plus t [] = t.
Proof.
  unfold tally_plus, successes, failures. cbn.
  rewrite app_nil_r, !Z.add_0_r. by destruct t.
Qed.

Lemma count_result_plus (r : EventProcessingResult) (t : tally) :
  count_result r t = tally_plus t [r].
Proof.
  unfold count_result, tally_plus, successes, failures. cbn.
  destruct (success r); cbn; f_equal; lia.
Qed.

Lemma tally_plus_plus (t : tally) (rs1 rs2 : list EventProcessingResult) :
  tally_plus (tally_plus t rs1) rs2 = tally_plus t (rs1 ++ rs2).
Proof.
  unfold tally_plus, successes, failures. cbn.
  rewrite !List.filter_app, !length_app, app_assoc. f_equal; lia.
Qed.

Lemma left_pending_refl (rows : list Event) : left_pending [] rows rows.
Proof.
  unfold left_pending. rewrite Forall_forall. intros e Hin Hu.
  exists e. repeat split; try done. apply not_elem_of_nil.
Qed.

Lemma left_pending_step (i : UUID) (ids : list UUID) (now : instant)
      (rows rows' : list Event) :
  left_pending ids (patched i (set_processed now) rows) rows' ->
  left_pending (i :: ids) rows rows'.
Proof.
  unfold left_pending. rewrite !Forall_forall. intros H e' Hin Hu.
  destruct (H e' Hin Hu) as (e1 & Hin1 & Hu1 & Hid1 & Hnot).
  apply elem_of_patched in Hin1 as (e & Hin0 & ->).
  destruct (String.eqb (id e) i) eqn:Hb; [done|].
  apply String.eqb_neq in Hb. exists e. repeat split; try done.
  rewrite elem_of_cons. intros [?|?]; [by apply Hb | by apply Hnot].
Qed.

(** The loop of [process_pending_events] never raises; it runs the
    dispatcher on the events one after the other and counts.  When no
    database call fails and no result is a failure, the only rows left
    unprocessed are rows of other events. *)
Lemma process_next_loop (evs : list Event) (t : tally) (w : World) :
  exists rs w',
    for_each evs process_next t w = (Return (tally_plus t rs), w') /\
    List.map event_id rs = List.map id evs /\
    same_oracles w w' /\
    trace w' = trace w ++ concat (List.map calls_of evs) /\
    (reliable w -> failures rs = 0 ->
     left_pending (List.map id evs) (events w) (events w')).
Proof.
  revert t w. induction evs as [|ev evs IH]; intros t w.
  - exists [], w. cbn. rewrite tally_plus_nil, app_nil_r.
    split; [done|]. split; [done|]. split; [apply same_oracles_refl|].
    split; [done|]. intros _ _. apply left_pending_refl.
  - destruct (process_event_run ev w) as (r & w1 & Hrun & Hid & _ & Ho & Htr & Hcase).
    destruct (IH (count_result r t) w1) as (rs & w' & Hloop & Hids & Ho' & Htr' & Hleft).
    exists (r :: rs), w'. cbn [for_each]. unfold bind at 1, process_next at 1.
    unfold bind at 1. rewrite Hrun. unfold ret at 1. rewrite Hloop.
    split; [|split; [|split; [|split]]].
    + by rewrite count_result_plus, tally_plus_plus.
    + cbn [List.map]. by rewrite Hid, Hids.
    + by eapply same_oracles_trans.
    + rewrite Htr', Htr. cbn [List.map concat]. by rewrite app_assoc.
    + intros Hrel Hnone. rewrite failures_cons in Hnone.
      assert (Hs : success r = true).
      { destruct (success r); [done|]. unfold failures in Hnone. lia. }
      rewrite Hs in Hnone. cbn [List.map].
      assert (Hrel1 : reliable w1).
      { intros k. destruct Ho as [_ ->]. apply Hrel. }
      specialize (Hleft Hrel1 ltac:(lia)).
      destruct (getattr attributes (handler_name ev)) as [h|];
        [|destruct Hcase as (Hf & _); congruence].
      destruct (h ev); [|destruct Hcase as (Hf & _); congruence].
      destruct Hcase as (_ & _ & _ & _ & _ & _ & Hev).
      rewrite (Hrel (db_calls w)) in Hev. rewrite Hev in Hleft.
      by eapply left_pending_step.
Qed.

(** ** Fetching the pending events *)

#[local] Instance by_event_number_trans : Transitive by_event_number.
Proof. unfold by_event_number. intros a b c. lia. Qed.

#[local] Instance by_event_number_total : Total by_event_number.
Proof. unfold by_event_number. intros a b. lia. Qed.

Lemma get_unprocessed_events_run (limit : nat) (w : World) :
  EventService.get_unprocessed_events limit w =
  match db_fault w (db_calls w) with
  | None => (Return (pending limit w), with_db_calls (S (db_calls w)) w)
  | Some msg =>
      (Raise (HTTPException 500 ("Failed to get unprocessed events: " +:+ msg)),
       with_db_calls (S (db_calls w)) w)
  end.
Proof.
  unfold EventService.get_unprocessed_events, pending. run_monad.
  destruct (db_fault w (db_calls w)); [done|]. by destruct w.
Qed.


Lemma elem_of_order_asc (e : Event) (rows : list Event) :
  e ∈ order_asc rows <-> e ∈ rows.
Proof. unfold order_asc. by rewrite merge_sort_Permutation. Qed.

Lemma elem_of_bool_filter {A} (f : A -> bool) (l : list A) (x : A) :
  x ∈ List.filter f l <-> x ∈ l /\ f x = true.
Proof. by rewrite !list_elem_of_In, filter_In. Qed.

Lemma pending_unprocessed (limit : nat) (w : World) :
  Forall (fun e => e ∈ events w /\ is_processed e = false) (pending limit w).
Proof.
  rewrite Forall_forall. intros e Hin. unfold pending in Hin.
  apply subseteq_take, elem_of_order_asc, elem_of_bool_filter in Hin as [Hin Hu].
  split; [done|]. unfold EventService.unprocessed in Hu. by destruct (is_processed e).
Qed.




Lemma process_pending_events_run (limit : nat) (w : World) :
  db_fault w (db_calls w) = None ->
  exists b w',
    process_pending_events limit w = (Return b, w') /\
    same_oracles w w' /\
    trace w' = trace w ++ concat (List.map calls_of (pending limit w)) /\
    total_events b = Z.of_nat (length (pending limit w)) /\
    List.map event_id (results b) = List.map id (pending limit w) /\
    successful b = successes (results b) /\
    failed b = failures (results b) /\
    (pending limit w = [] -> b = zero_result /\ events w' = events w) /\
    (reliable w -> failed b = 0 ->
     left_pending (List.map id (pending limit w)) (events w) (events w')).
Proof.
  intros Hok. unfold process_pending_events.
  unfold bind at 1, time_time at 1. unfold try_except, bind at 1.
  rewrite get_unprocessed_events_run. cbn [db_fault db_calls with_ticks].
  rewrite Hok.
  assert (Hp : pending limit (with_ticks (S (ticks w)) w) = pending limit w) by done.
  rewrite Hp. destruct (pending limit w) as [|ev evs] eqn:Hpend.
  - unfold ret. do 2 eexists. split; [reflexivity|]. cbn.
    rewrite app_nil_r. repeat split; try done.
    intros _ _. apply left_pending_refl.
  - destruct (process_next_loop (ev :: evs) empty_tally
                (with_db_calls (S (db_calls w)) (with_ticks (S (ticks w)) w)))
      as (rs & w1 & Hloop & Hids & [Hc Hf] & Htr & Hleft).
    unfold bind at 1. rewrite Hloop. unfold bind, time_time, ret.
    do 2 eexists. split; [reflexivity|]. cbn in *.
    split; [by split|]. split; [done|]. split; [lia|]. split; [done|].
    split; [lia|]. split; [lia|]. split; [done|].
    intros Hrel Hnone. apply Hleft; [exact Hrel | lia].
Qed.



(** ** Processing events by id *)

Lemma get_event_by_id_run (event_id : UUID) (w : World) :
  EventService.get_event_by_id event_id w =
  (match db_fault w (db_calls w) with
   | Some msg => Raise (HTTPException 500 ("Failed to get event: " +:+ msg))
   | None =>
       match List.filter (EventService.has_id event_id) (events w) with
       | [] => Raise (HTTPException 404 ("Event " +:+ event_id +:+ " not found"))
       | row :: _ => Return row
       end
   end,
   with_db_calls (S (db_calls w)) w).
Proof.
  unfold EventService.get_event_by_id, EventService.reraise_http. run_monad.
  destruct (db_fault w (db_calls w)); [done|]. cbn.
  destruct (List.filter _ _); cbn; by destruct w.
Qed.

Lemma failed_result_plus (t : tally) (r : EventProcessingResult) :
  success r = false ->
  {| t_results := t_results t ++ [r];
     t_successful := t_successful t;
     t_failed := t_failed t + 1 |} = tally_plus t [r].
Proof.
  intros Hr. unfold tally_plus, successes, failures. cbn. rewrite Hr. cbn.
  f_equal; lia.
Qed.

(** One turn of the loop never raises and adds at most one result. *)
Lemma process_one_run (force : bool) (event_id : UUID) (t : tally) (w : World) :
  exists rs w',
    process_one force event_id t w = (Return (tally_plus t rs), w') /\
    (length rs <= 1)%nat /\ same_oracles w w'.
Proof.
  unfold process_one, try_except. unfold bind at 1.
  rewrite get_event_by_id_run.
  destruct (db_fault w (db_calls w)) as [msg|].
  { run_monad.
    match goal with |- context [t_results t ++ [?r]] =>
      exists [r]; rewrite <- (failed_result_plus t r) by reflexivity end.
    eexists. split; [reflexivity|]. by repeat split. }
  destruct (List.filter _ _) as [|row rest].
  { run_monad.
    match goal with |- context [t_results t ++ [?r]] =>
      exists [r]; rewrite <- (failed_result_plus t r) by reflexivity end.
    eexists. split; [reflexivity|]. by repeat split. }
  destruct (is_processed row && negb force).
  - run_monad. exists [], (with_log
      (log w ++ [{| level := WARNING;
                    message := "Event " +:+ event_id +:+ " already processed, skipping" |}])
      (with_db_calls (S (db_calls w)) w)).
    rewrite tally_plus_nil. split; [done|]. split; [cbn; lia | by split].
  - destruct (process_event_run row (with_db_calls (S (db_calls w)) w))
      as (r & w' & Hrun & _ & _ & Ho & _).
    unfold bind. rewrite Hrun. unfold ret. exists [r], w'.
    rewrite count_result_plus. split; [done|]. split; [done|].
    destruct Ho as [Hc Hf]. by split.
Qed.

Lemma process_one_loop (force : bool) (ids : list UUID) (t : tally) (w : World) :
  exists rs w',
    for_each ids (process_one force) t w = (Return (tally_plus t rs), w') /\
    (length rs <= length ids)%nat /\ same_oracles w w'.
Proof.
  revert t w. induction ids as [|i ids IH]; intros t w.
  - exists [], w. cbn. rewrite tally_plus_nil. split; [done|]. split; [lia|].
    apply same_oracles_refl.
  - destruct (process_one_run force i t w) as (rs1 & w1 & Hone & Hlen1 & Ho1).
    destruct (IH (tally_plus t rs1) w1) as (rs2 & w2 & Hloop & Hlen2 & Ho2).
    exists (rs1 ++ rs2), w2. cbn [for_each]. unfold bind. rewrite Hone, Hloop.
    rewrite tally_plus_plus. split; [done|]. split.
    + rewrite length_app. cbn [length]. lia.
    + by eapply same_oracles_trans.
Qed.

Lemma process_specific_events_run (ids : list UUID) (force : bool) (w : World) :
  exists b w',
    process_specific_events ids force w = (Return b, w') /\
    total_events b = Z.of_nat (length ids) /\
    successful b = successes (results b) /\
    failed b = failures (results b) /\
    (length (results b) <= length ids)%nat.
Proof.
  unfold process_specific_events. unfold bind at 1, time_time at 1.
  unfold try_except, bind at 1.
  destruct (process_one_loop force ids empty_tally (with_ticks (S (ticks w)) w))
    as (rs & w1 & Hloop & Hlen & _).
  rewrite Hloop. unfold bind, time_time, ret. do 2 eexists.
  split; [reflexivity|]. cbn. repeat split; try done; lia.
Qed.

(** C5.  In a turn of the loop of [process_specific_events] with
    [force_reprocess] false, whatever the turns before it left behind,
    when the event loaded for the id is processed, the turn leaves the
    results and both counters as they were, calls neither the
    dispatcher nor a handler, and leaves the table as it was; all it
    does is log one warning.  So, wherever the id stands in the list,
    the loop goes on with the ids after it from the same results,
    counters, table and trace; and a run over that single id answers no
    result, no success and no failure. *)
Theorem process_specific_events_skips_processed
        (event_id : UUID) (t : tally) (w w1 : World) (event : Event) :
  EventService.get_event_by_id event_id w = (Return event, w1) ->
  is_processed event = true ->
  (exists w',
      process_one false event_id t w = (Return t, w') /\
      events w' = events w /\
      trace w' = trace w /\
      log w' = log w ++ [{| level := WARNING;
                            message := "Event " +:+ event_id +:+
                                       " already processed, skipping" |}]) /\
  (forall (before after : list UUID) (t0 : tally) (w0 : World),
      for_each before (process_one false) t0 w0 = (Return t, w) ->
      exists w',
        events w' = events w /\ trace w' = trace w /\
        for_each (before ++ event_id :: after) (process_one false) t0 w0 =
        for_each after (process_one false) t w') /\
  (exists b w',
      process_specific_events [event_id] false w = (Return b, w') /\
      results b = [] /\ successful b = 0 /\ failed b = 0 /\
      events w' = events w /\ trace w' = trace w).
Proof.
  intros Hget Hdone. rewrite get_event_by_id_run in Hget.
  injection Hget as Hget _.
  destruct (db_fault w (db_calls w)) as [msg|] eqn:Hf; [done|].
  destruct (List.filter _ _) as [|row rest] eqn:Hrows; [done|].
  injection Hget as ->.
  assert (Hone : exists w',
             process_one false event_id t w = (Return t, w') /\
             events w' = events w /\ trace w' = trace w /\
             log w' = log w ++ [{| level := WARNING;
                                   message := "Event " +:+ event_id +:+
                                              " already processed, skipping" |}]).
  { unfold process_one, try_except. unfold bind at 1.
    rewrite get_event_by_id_run, Hf, Hrows, Hdone. run_monad.
    eexists. split; [reflexivity|]. by repeat split. }
  split; [exact Hone|]. split.
  - intros before after t0 w0 Hbefore.
    destruct Hone as (w' & Hrun & Hev & Htr & _).
    exists w'. split; [done|]. split; [done|].
    rewrite for_each_app. unfold bind at 1. rewrite Hbefore.
    cbn [for_each]. unfold bind at 1. by rewrite Hrun.
  - unfold process_specific_events. unfold bind at 1, time_time at 1.
    unfold try_except, bind at 1. cbn [for_each]. unfold bind at 1.
    unfold process_one, try_except. unfold bind at 1.
    rewrite get_event_by_id_run. cbn [db_fault db_calls events with_ticks].
    rewrite Hf, Hrows, Hdone. run_monad.
    do 2 eexists. split; [reflexivity|]. by repeat split.
Qed.

(** An order already processed, asked for again without force. *)
Lemma process_specific_events_skips_processed_witness :
  exists w1,
    EventService.get_event_by_id "e-0004" (Sample.world [Sample.done_already]) =
      (Return Sample.done_already, w1) /\
    is_processed Sample.done_already = true /\
    exists b w',
      process_specific_events ["e-0004"] false (Sample.world [Sample.done_already]) =
        (Return b, w') /\
      results b = [] /\ successful b = 0 /\ failed b = 0 /\
      events w' = [Sample.done_already] /\ trace w' = [].
Proof.
  eexists. split; [reflexivity|]. split; [reflexivity|].
  exact (proj2 (proj2 (process_specific_events_skips_processed
                         "e-0004" empty_tally (Sample.world [Sample.done_already]) _
                         Sample.done_already eq_refl eq_refl))).
Defined.

(** C10.  [process_specific_events] answers normally for every list of
    ids, and [total_events] is the length of that list, whatever was
    skipped; the two counters add up to the number of results, which is
    at most that length.  With one id, of an event already processed,
    and no force, [total_events] is 1 while there is no result, no
    success and no failure. *)
Theorem process_specific_events_total :
  (forall (ids : list UUID) (force : bool) (w : World),
      exists b w',
        process_specific_events ids force w = (Return b, w') /\
        total_events b = Z.of_nat (length ids) /\
        successful b + failed b = Z.of_nat (length (results b)) /\
        (length (results b) <= length ids)%nat) /\
  (exists b w',
      process_specific_events ["e-0004"] false (Sample.world [Sample.done_already]) =
        (Return b, w') /\
      total_events b = 1 /\
      successful b + failed b < total_events b /\
      Z.of_nat (length (results b)) < total_events b).
Proof.
  split.
  - intros ids force w.
    destruct (process_specific_events_run ids force w)
      as (b & w' & Hrun & Htot & Hs & Hf & Hlen).
    exists b, w'. split; [done|]. split; [done|]. split; [|done].
    rewrite Hs, Hf. apply successes_failures.
  - do 2 eexists. split; [vm_compute; reflexivity|]. by vm_compute.
Qed.

(** ** Running the batch twice *)

Lemma order_asc_nil : order_asc [] = [].
Proof. reflexivity. Qed.

Lemma pending_all (limit : nat) (w : World) (e : Event) :
  (length (List.filter EventService.unprocessed (events w)) <= limit)%nat ->
  e ∈ events w -> is_processed e = false -> e ∈ pending limit w.
Proof.
  intros Hlen Hin Hu. unfold pending. rewrite take_ge.
  - apply elem_of_order_asc, elem_of_bool_filter. split; [done|].
    unfold EventService.unprocessed. by rewrite Hu.
  - unfold order_asc. by rewrite merge_sort_Permutation.
Qed.

Lemma pending_nil (limit : nat) (w : World) :
  Forall (fun e => is_processed e = true) (events w) -> pending limit w = [].
Proof.
  intros Hall. unfold pending.
  replace (List.filter EventService.unprocessed (events w)) with (@nil Event).
  - rewrite order_asc_nil. by destruct limit.
  - symmetry. induction Hall as [|e l He _ IH]; [done|].
    cbn. unfold EventService.unprocessed at 1. by rewrite He.
Qed.

(** One event of a type that has no handler: the first run fails on
    it, and the second run fetches it again. *)
Lemma sparkle_runs :
  exists b1 w1 b2 w2,
    process_pending_events 100 (Sample.world [Sample.sparkle]) = (Return b1, w1) /\
    process_pending_events 100 w1 = (Return b2, w2) /\
    failed b1 = 1 /\ total_events b2 = 1.
Proof.
  eexists _, _, _, _.
  split; [vm_compute; reflexivity|].
  split; [vm_compute; reflexivity|].
  split; reflexivity.
Qed.

(** C7, as the specification words it: it does not hold.  With one
    event of a type that has no handler in the table, the first run
    leaves the event unprocessed and the second run fetches it again:
    its [total_events] is 1. *)
Lemma second_run_not_empty :
  ~ (forall (limit : nat) (w w1 w2 : World) (b1 b2 : BatchProcessingResult),
        process_pending_events limit w = (Return b1, w1) ->
        process_pending_events limit w1 = (Return b2, w2) ->
        total_events b2 = 0).
Proof.
  intros H.
  destruct sparkle_runs as (b1 & w1 & b2 & w2 & H1 & H2 & _ & Htot).
  specialize (H _ _ _ _ _ _ H1 H2). rewrite Htot in H. discriminate.
Qed.

(** C7, amended.  When the fetch goes through and yields no event,
    [process_pending_events] answers the zero result, calls neither the
    dispatcher nor a handler and leaves the table as it was.  And when no
    database call fails, the unprocessed events are no more than
    [limit] and the first run counts no failure, a second run, with no
    event posted in between, answers the zero result. *)
Theorem process_pending_events_twice :
  (forall (limit : nat) (w : World),
      db_fault w (db_calls w) = None ->
      pending limit w = [] ->
      exists w',
        process_pending_events limit w = (Return zero_result, w') /\
        trace w' = trace w /\ events w' = events w) /\
  (forall (limit : nat) (w w1 : World) (b1 : BatchProcessingResult),
      reliable w ->
      (length (List.filter EventService.unprocessed (events w)) <= limit)%nat ->
      process_pending_events limit w = (Return b1, w1) ->
      failed b1 = 0 ->
      exists w2,
        process_pending_events limit w1 = (Return zero_result, w2) /\
        trace w2 = trace w1 /\ events w2 = events w1).
Proof.
  assert (Hzero : forall (limit : nat) (w : World),
             db_fault w (db_calls w) = None -> pending limit w = [] ->
             exists w', process_pending_events limit w = (Return zero_result, w') /\
                        trace w' = trace w /\ events w' = events w).
  { intros limit w Hok Hnil.
    destruct (process_pending_events_run limit w Hok)
      as (b & w' & Hrun & _ & Htr & _ & _ & _ & _ & Hz & _).
    destruct (Hz Hnil) as [-> Hev]. exists w'. split; [done|]. split; [|done].
    rewrite Htr, Hnil. cbn. by rewrite app_nil_r. }
  split; [exact Hzero|].
  intros limit w w1 b1 Hrel Hlen Hrun1 Hnone.
  destruct (process_pending_events_run limit w (Hrel _))
    as (b & w' & Hrun & [_ Hfault] & _ & _ & _ & _ & _ & _ & Hleft).
  rewrite Hrun1 in Hrun. injection Hrun as <- <-.
  specialize (Hleft Hrel Hnone).
  apply Hzero.
  - rewrite Hfault. apply Hrel.
  - apply pending_nil. unfold left_pending in Hleft.
    rewrite Forall_forall in Hleft |- *. intros e' Hin.
    destruct (is_processed e') eqn:Hu; [done|exfalso].
    destruct (Hleft e' Hin Hu) as (e & Hin0 & Hu0 & _ & Hnot).
    apply Hnot. rewrite list_elem_of_In. apply in_map. rewrite <- list_elem_of_In.
    by apply pending_all.
Qed.

(** A table with nothing to do, and a table with one event that goes
    through: the second run finds nothing. *)
Lemma process_pending_events_twice_witness :
  (exists w',
      process_pending_events 100 (Sample.world [Sample.done_already]) =
        (Return zero_result, w') /\ trace w' = []) /\
  (exists b1 w1 w2,
      process_pending_events 100 (Sample.world [Sample.pump]) = (Return b1, w1) /\
      total_events b1 = 1 /\ failed b1 = 0 /\
      process_pending_events 100 w1 = (Return zero_result, w2)).
Proof.
  split.
  - destruct (proj1 process_pending_events_twice 100%nat
                (Sample.world [Sample.done_already]) eq_refl eq_refl)
      as (w' & Hrun & Htr & _).
    exists w'. split; [exact Hrun | exact Htr].
  - assert (Hrel : reliable (Sample.world [Sample.pump])) by (intros k; reflexivity).
    assert (Hlen : (length (List.filter EventService.unprocessed
                              (events (Sample.world [Sample.pump]))) <= 100)%nat)
      by (cbn; lia).
    assert (Hrun1 : exists b1 w1,
               process_pending_events 100 (Sample.world [Sample.pump]) = (Return b1, w1) /\
               total_events b1 = 1 /\ failed b1 = 0).
    { eexists _, _. split; [vm_compute; reflexivity|]. split; reflexivity. }
    destruct Hrun1 as (b1 & w1 & Hrun1 & Htot & Hnone).
    destruct (proj2 process_pending_events_twice 100%nat
                (Sample.world [Sample.pump]) w1 b1 Hrel Hlen Hrun1 Hnone)
      as (w2 & Hrun2 & _).
    exists b1, w1, w2. split; [exact Hrun1|]. split; [exact Htot|].
    split; [exact Hnone | exact Hrun2].
Defined.

(** ** Statistics *)

(** What [get_stats] answers when no database call fails: every count
    is taken from the table, but [events_failed], which is always 0. *)
Lemma get_stats_run (w : World) :
  reliable w ->
  exists w',
    get_stats w =
      (Return
         {| total_events_processed :=
              Z.of_nat (length (events w)) -
              Z.of_nat (length (List.filter EventService.unprocessed (events w)));
            events_pending :=
              Z.of_nat (length (List.filter EventService.unprocessed (events w)));
            events_failed := 0;
            success_rate :=
              if 0 <? Z.of_nat (length (events w))
              then (inject_Z (Z.of_nat (length (events w)) -
                              Z.of_nat (length (List.filter EventService.unprocessed
                                                            (events w))))
                    / inject_Z (Z.of_nat (length (events w))) * 100)%Q
              else 0%Q;
            average_processing_time_ms := 0;
            last_processed_at :=
              match order_desc (List.filter (EventService.matches last_processed_query)
                                            (events w)) with
              | [] => None
              | e :: _ => processed_at e
              end;
            event_type_breakdown := EventService.count_by event_type (events w) |},
       w') /\
    events w' = events w.
Proof.
  intros Hrel. unfold get_stats, EventService.get_event_stats, EventService.get_events.
  run_monad. repeat (rewrite Hrel; cbn).
  eexists. split.
  - apply f_equal2; [|reflexivity]. do 2 f_equal.
    unfold order_desc, last_processed_query. by destruct (merge_sort _ _).
  - reflexivity.
Qed.

Lemma get_stats_events_failed (w w' : World) (st : DatabaseManagerStats) :
  get_stats w = (Return st, w') -> events_failed st = 0.
Proof.
  unfold get_stats, try_except. unfold bind at 1.
  destruct (EventService.get_event_stats w) as [[s|e] w1]; [|discriminate].
  unfold bind at 1.
  destruct (EventService.get_events _ w1) as [[l|e] w2]; [|discriminate].
  unfold ret. by intros [= <- _].
Qed.

(** C8, at a table that holds one processed event and one event that
    failed and carries its error: [get_stats] answers one event
    processed, one pending, a success rate of 50 per cent, the events
    per type, and 0 failed events. *)
Theorem get_stats_counts_no_failed_event :
  length (failed_events (events (Sample.world Sample.mixed))) = 1%nat /\
  exists st w',
    get_stats (Sample.world Sample.mixed) = (Return st, w') /\
    total_events_processed st = 1 /\
    events_pending st = 1 /\
    Qeq (success_rate st) 50 /\
    event_type_breakdown st !! "order.created" = Some 1 /\
    event_type_breakdown st !! "product.updated" = Some 1 /\
    events_failed st = 0.
Proof.
  split; [reflexivity|].
  do 2 eexists. split; [vm_compute; reflexivity|]. by vm_compute.
Qed.

(** ** Validation of a new event *)

Lemma length_append (a b : string) :
  String.length (a +:+ b) = (String.length a + String.length b)%nat.
Proof. induction a as [|c a IH]; simpl; [done|]. by rewrite IH. Qed.

Lemma contains_append (sep : ascii) (a b : string) :
  PyStr.contains sep (a +:+ b) = PyStr.contains sep a || PyStr.contains sep b.
Proof.
  induction a as [|c a IH]; simpl; [done|]. rewrite IH. by destruct (Ascii.eqb c sep).
Qed.

Lemma split_not_nil (sep : ascii) (s : string) : PyStr.split sep s <> [].
Proof.
  destruct s as [|c s]; cbn; [done|].
  destruct (Ascii.eqb c sep); [done|]. by destruct (PyStr.split sep s).
Qed.

Lemma split_one (sep : ascii) (s a : string) :
  PyStr.split sep s = [a] <-> s = a /\ PyStr.contains sep a = false.
Proof.
  revert a. induction s as [|c s IH]; intros a; cbn.
  - split; [by intros [= <-] | by intros [<- _]].
  - destruct (Ascii.eqb c sep) eqn:Hc.
    + split.
      * intros [= <- Hnil]. by apply split_not_nil in Hnil.
      * intros [<- Hno]. cbn in Hno. by rewrite Hc in Hno.
    + destruct (PyStr.split sep s) as [|p ps] eqn:Hs.
      { by apply split_not_nil in Hs. }
      split.
      * intros [= <- ->]. destruct (proj1 (IH p) eq_refl) as [-> Hno].
        split; [done|]. cbn. by rewrite Hc.
      * intros [<- Hno]. cbn in Hno. rewrite Hc in Hno. cbn in Hno.
        assert (Hp : p :: ps = [s]) by (apply IH; by split).
        by injection Hp as -> ->.
Qed.

Lemma split_two (sep : ascii) (s a b : string) :
  PyStr.split sep s = [a; b] <->
  s = a +:+ String sep b /\
  PyStr.contains sep a = false /\ PyStr.contains sep b = false.
Proof.
  revert a. induction s as [|c s IH]; intros a; cbn.
  - split; [done|]. intros (Heq & _). by destruct a.
  - destruct (Ascii.eqb c sep) eqn:Hc.
    + apply Ascii.eqb_eq in Hc as ->. split.
      * intros [= <- Hb]. apply split_one in Hb as [-> Hno]. by repeat split.
      * intros (Heq & Ha & Hb). destruct a as [|c' a].
        -- cbn in Heq. injection Heq as ->. f_equal. apply split_one. by split.
        -- cbn in Heq, Ha. injection Heq as <- _.
           by rewrite Ascii.eqb_refl in Ha.
    + destruct (PyStr.split sep s) as [|p ps] eqn:Hs.
      { by apply split_not_nil in Hs. }
      split.
      * intros [= <- ->]. destruct (proj1 (IH p) eq_refl) as (-> & Ha & Hb).
        split; [done|]. cbn. by rewrite Hc.
      * intros (Heq & Ha & Hb). destruct a as [|c' a].
        -- cbn in Heq. injection Heq as -> _. by rewrite Ascii.eqb_refl in Hc.
        -- cbn in Heq, Ha. injection Heq as <- ->.
           rewrite Hc in Ha. cbn in Ha.
           assert (Hp : p :: ps = [a; b]) by (apply IH; by repeat split).
           by injection Hp as -> ->.
Qed.

Lemma split_length_two (sep : ascii) (s : string) :
  length (PyStr.split sep s) = 2%nat ->
  exists a b, PyStr.split sep s = [a; b].
Proof.
  destruct (PyStr.split sep s) as [|a [|b [|c l]]]; try done. intros _. by exists a, b.
Qed.

Lemma validate_event_type_spec (v r : string) :
  EventCreate.validate_event_type v = Return r <-> dotted_pair v /\ r = PyStr.lower v.
Proof.
  unfold EventCreate.validate_event_type, dotted_pair. split.
  - destruct (PyStr.contains "." v); cbn; [|done].
    destruct (length (PyStr.split "." v) =? 2)%nat eqn:Hlen; cbn; [|done].
    apply Nat.eqb_eq, split_length_two in Hlen as (a & b & Hs). rewrite Hs. cbn.
    destruct (String.eqb a "") eqn:Ha; cbn; [done|].
    destruct (String.eqb b "") eqn:Hb; cbn; [done|].
    intros [= <-]. split; [|done]. exists a, b.
    apply split_two in Hs as (-> & Hna & Hnb).
    apply String.eqb_neq in Ha, Hb. by repeat split.
  - intros [(a & b & -> & Ha & Hb & Hna & Hnb) ->].
    assert (Hs : PyStr.split "." (a +:+ "." +:+ b) = [a; b])
      by (apply split_two; by repeat split).
    assert (Hc : PyStr.contains "." (a +:+ "." +:+ b) = true)
      by (rewrite contains_append; apply Bool.orb_true_r).
    rewrite Hc, Hs. cbn. apply String.eqb_neq in Ha, Hb. by rewrite Ha, Hb.
Qed.

Lemma prefix_starts_with (p v : string) :
  String.prefix p v = true <-> starts_with p v.
Proof.
  unfold starts_with. revert v. induction p as [|c p IH]; intros v.
  - split; [intros _; by exists v|]. intros _. by destruct v.
  - destruct v as [|c' v]; simpl.
    + split; [done|]. by intros (rest & ?).
    + destruct (ascii_dec c c') as [<-|Hne].
      * rewrite IH. split; intros (rest & Hr); exists rest.
        -- by rewrite Hr.
        -- by injection Hr.
      * split; [done|]. intros (rest & [= <- _]). by destruct Hne.
Qed.

Lemma validate_created_by_spec (v r : string) :
  EventCreate.validate_created_by v = Return r <-> actor_prefixed v /\ r = v.
Proof.
  unfold EventCreate.validate_created_by, PyStr.startswith, actor_prefixed.
  cbn [existsb]. rewrite Bool.orb_false_r.
  rewrite <- !prefix_starts_with.
  destruct (String.prefix "user:" v), (String.prefix "agent:" v),
    (String.prefix "system" v); cbn; split; try solve [intros [= <-]; auto];
    try solve [intros [_ ->]; done]; try done.
  all: intros [[?|[?|?]] _]; done.
Qed.

Lemma check_length_spec (lo hi : nat) (v r : string) :
  EventCreate.check_length lo hi v = Return r <->
  (lo <= String.length v <= hi)%nat /\ r = v.
Proof.
  unfold EventCreate.check_length.
  destruct (String.length v <? lo)%nat eqn:H1.
  { apply Nat.ltb_lt in H1. split; [done|]. intros [? _]. lia. }
  destruct (hi <? String.length v)%nat eqn:H2.
  { apply Nat.ltb_lt in H2. split; [done|]. intros [? _]. lia. }
  apply Nat.ltb_ge in H1, H2. split; [intros [= <-]|intros [_ ->]]; by repeat split.
Qed.

Lemma dotted_pair_length (v : string) : dotted_pair v -> (3 <= String.length v)%nat.
Proof.
  intros (a & b & -> & Ha & Hb & _). rewrite !length_append.
  destruct a; [done|]. destruct b; [done|]. cbn. lia.
Qed.

Lemma actor_prefixed_length (v : string) : actor_prefixed v -> (1 <= String.length v)%nat.
Proof.
  intros [(r & ->)|[(r & ->)|(r & ->)]]; simpl; lia.
Qed.

Lemma field_event_type_spec (v r : string) :
  EventCreate.field_event_type v = Return r <->
  (String.length v <= 100)%nat /\ dotted_pair v /\ r = PyStr.lower v.
Proof.
  unfold EventCreate.field_event_type, EventCreate.field.
  destruct (EventCreate.check_length 3 100 v) as [v'|e] eqn:Hlen.
  - apply check_length_spec in Hlen as [[? ?] ->].
    rewrite validate_event_type_spec.
    split; [intros [? ?]; by repeat split | intros (_ & ? & ?); by split].
  - split; [done|]. intros (Hle & Hdot & _).
    assert (Hok : EventCreate.check_length 3 100 v = Return v).
    { apply check_length_spec. split; [|done]. split; [|done].
      by apply dotted_pair_length. }
    congruence.
Qed.

Lemma field_created_by_spec (v r : string) :
  EventCreate.field_created_by v = Return r <->
  (String.length v <= 100)%nat /\ actor_prefixed v /\ r = v.
Proof.
  unfold EventCreate.field_created_by, EventCreate.field.
  destruct (EventCreate.check_length 1 100 v) as [v'|e] eqn:Hlen.
  - apply check_length_spec in Hlen as [[? ?] ->].
    rewrite validate_created_by_spec.
    split; [intros [? ?]; by repeat split | intros (_ & ? & ?); by split].
  - split; [done|]. intros (Hle & Hact & _).
    assert (Hok : EventCreate.check_length 1 100 v = Return v).
    { apply check_length_spec. split; [|done]. split; [|done].
      by apply actor_prefixed_length. }
    congruence.
Qed.

Lemma new_rejects (body : EventCreate.t) (e : exn) :
  EventCreate.field_event_type (EventCreate.event_type body) = Raise e \/
  EventCreate.field_created_by (EventCreate.created_by body) = Raise e ->
  exists errors, errors <> [] /\ EventCreate.new body = inl errors.
Proof.
  unfold EventCreate.new. intros Hbad.
  destruct (EventCreate.field_event_type _) as [et|e1];
    destruct (EventCreate.field_aggregate_type _) as [at_|e2];
    destruct (EventCreate.field_created_by _) as [cb|e3];
    destruct (EventCreate.field_idempotency_key _) as [ik|e4];
    try (eexists; split; [|reflexivity]; by cbn).
  by destruct Hbad.
Qed.

(** C9, as the specification words it: it does not hold.  A type of 101
    characters with one dot between two non-empty parts is rejected. *)
Lemma long_event_type_rejected :
  ~ (forall v : string, accepted (EventCreate.field_event_type v) <-> dotted_pair v).
Proof.
  intros H.
  assert (Hd : dotted_pair Sample.long_type).
  { exists "a", (String.concat "" (replicate 99 "b")). by repeat split. }
  apply H in Hd as [r Hr]. apply field_event_type_spec in Hr as [Hlen _].
  assert (Hl : String.length Sample.long_type = 101%nat) by (vm_compute; reflexivity).
  lia.
Qed.

(** C9, amended.  The type of a new event is accepted exactly when it
    has at most 100 characters and is made of two non-empty parts
    separated by its only dot, and it is then stored in lower case.  The
    actor of a new event is accepted exactly when it has at most 100
    characters and starts with [user:], [agent:] or [system], and it is
    stored as it is.  When either is rejected the post route answers the
    validation errors, of which there is at least one, and the table,
    like the rest of the world, is left as it was. *)
Theorem event_creation_validates :
  (forall v r : string,
      EventCreate.field_event_type v = Return r <->
      (String.length v <= 100)%nat /\ dotted_pair v /\ r = PyStr.lower v) /\
  (forall v r : string,
      EventCreate.field_created_by v = Return r <->
      (String.length v <= 100)%nat /\ actor_prefixed v /\ r = v) /\
  (forall (new_id : UUID) (body : EventCreate.t) (user : option UUID)
          (w : World) (e : exn),
      EventCreate.field_event_type (EventCreate.event_type body) = Raise e \/
      EventCreate.field_created_by (EventCreate.created_by body) = Raise e ->
      exists errors,
        errors <> [] /\ post_event_route new_id body user w = (inl errors, w)).
Proof.
  split; [exact field_event_type_spec|]. split; [exact field_created_by_spec|].
  intros new_id body user w e Hbad.
  destruct (new_rejects body e Hbad) as (errors & Hne & Hnew).
  exists errors. split; [done|]. unfold post_event_route. by rewrite Hnew.
Qed.

(** A type with no dot is rejected and nothing is stored; a type in
    mixed case is stored in lower case. *)
Lemma event_creation_validates_witness :
  EventCreate.field_event_type "Product.Created" = Return "product.created" /\
  EventCreate.field_created_by "agent:pricing" = Return "agent:pricing" /\
  EventCreate.field_event_type
    (EventCreate.event_type (Sample.body "productcreated" "system")) =
    Raise (ValueError
             "event_type must follow format: aggregate.action (e.g., product.created)") /\
  exists errors,
    errors <> [] /\
    post_event_route "e-0100" (Sample.body "productcreated" "system") None
                     (Sample.world [Sample.pump]) =
      (inl errors, Sample.world [Sample.pump]).
Proof.
  split; [reflexivity|]. split; [reflexivity|]. split; [reflexivity|].
  exact (proj2 (proj2 event_creation_validates) "e-0100"
               (Sample.body "productcreated" "system") None
               (Sample.world [Sample.pump]) _ (or_introl eq_refl)).
Defined.

(** * Further properties of the event service *)

(** ** Queries only read *)

Lemma readonly_ret {A} (a : A) : readonly (ret a).
Proof. by intros w. Qed.

Lemma readonly_raise {A} (e : exn) : readonly (@raise A e).
Proof. by intros w. Qed.

Lemma readonly_bind {A B} (m : M A) (k : A -> M B) :
  readonly m -> (forall a, readonly (k a)) -> readonly (bind m k).
Proof.
  intros Hm Hk w. unfold bind. destruct (Hm w) as [He Ht].
  destruct (m w) as [[a|e] w1]; [|done]. cbn in He, Ht.
  destruct (Hk a w1) as [He' Ht']. split; congruence.
Qed.

Lemma readonly_try_except {A} (m : M A) (h : exn -> M A) :
  readonly m -> (forall e, readonly (h e)) -> readonly (try_except m h).
Proof.
  intros Hm Hh w. unfold try_except. destruct (Hm w) as [He Ht].
  destruct (m w) as [[a|e] w1]; [done|]. cbn in He, Ht.
  destruct (Hh e w1) as [He' Ht']. split; congruence.
Qed.

Lemma readonly_select {A} (q : list Event -> A) : readonly (execute (select q)).
Proof. intros w. unfold execute, select. by destruct (db_fault w (db_calls w)). Qed.

Lemma readonly_logger (lvl : log_level) (msg : string) : readonly (logger lvl msg).
Proof. by intros w. Qed.

Lemma readonly_reraise_http {A} (prefix : string) (e : exn) :
  readonly (@EventService.reraise_http A prefix e).
Proof. destruct e; apply readonly_raise. Qed.

Create HintDb readonly.
#[local] Hint Resolve readonly_ret readonly_raise readonly_select readonly_logger
  readonly_reraise_http : readonly.

Ltac readonly_steps :=
  repeat first
    [ apply readonly_try_except; [|intros ?]
    | apply readonly_bind; [|intros ?]
    | solve [auto with readonly]
    | match goal with |- readonly (match ?x with _ => _ end) => destruct x end ].

Lemma readonly_get_events (query : EventStreamQuery) :
  readonly (EventService.get_events query).
Proof. unfold EventService.get_events. readonly_steps. Qed.

Lemma readonly_get_event_by_id (event_id : UUID) :
  readonly (EventService.get_event_by_id event_id).
Proof. unfold EventService.get_event_by_id. readonly_steps. Qed.

Lemma readonly_get_unprocessed_events (limit : nat) :
  readonly (EventService.get_unprocessed_events limit).
Proof. unfold EventService.get_unprocessed_events. readonly_steps. Qed.

Lemma readonly_get_aggregate_history (aggregate_type_ : string) (aggregate_id_ : UUID) :
  readonly (EventService.get_aggregate_history aggregate_type_ aggregate_id_).
Proof. unfold EventService.get_aggregate_history. readonly_steps. Qed.

Lemma readonly_get_event_stats : readonly EventService.get_event_stats.
Proof. unfold EventService.get_event_stats. readonly_steps. Qed.

Lemma readonly_get_stats : readonly get_stats.
Proof.
  unfold get_stats. apply readonly_try_except; [|intros e; readonly_steps].
  apply readonly_bind; [apply readonly_get_event_stats|intros st].
  apply readonly_bind; [apply readonly_get_events|intros l]. apply readonly_ret.
Qed.

(** X1.  The queries of the event service and the statistics only read:
    in every world, whether their database calls go through or fail,
    [get_events], [get_event_by_id], [get_unprocessed_events],
    [get_aggregate_history], [get_event_stats] and [get_stats] leave the
    table as it was and call neither the dispatcher nor a handler. *)
Theorem queries_only_read :
  (forall query, readonly (EventService.get_events query)) /\
  (forall event_id, readonly (EventService.get_event_by_id event_id)) /\
  (forall limit, readonly (EventService.get_unprocessed_events limit)) /\
  (forall aggregate_type_ aggregate_id_,
      readonly (EventService.get_aggregate_history aggregate_type_ aggregate_id_)) /\
  readonly EventService.get_event_stats /\
  readonly get_stats.
Proof.
  split; [exact readonly_get_events|]. split; [exact readonly_get_event_by_id|].
  split; [exact readonly_get_unprocessed_events|].
  split; [exact readonly_get_aggregate_history|].
  split; [exact readonly_get_event_stats | exact readonly_get_stats].
Qed.

(** ** Reading events *)

#[local] Instance by_event_number_desc_trans : Transitive by_event_number_desc.
Proof. unfold by_event_number_desc. intros a b c. lia. Qed.

#[local] Instance by_event_number_desc_total : Total by_event_number_desc.
Proof. unfold by_event_number_desc. intros a b. lia. Qed.

Lemma get_events_run (query : EventStreamQuery) (w : World) :
  EventService.get_events query w =
  (match db_fault w (db_calls w) with
   | None =>
       Return (take (q_limit query)
                 (drop (q_offset query)
                    (order_desc (List.filter (EventService.matches query) (events w)))))
   | Some msg => Raise (HTTPException 500 ("Failed to query events: " +:+ msg))
   end,
   with_db_calls (S (db_calls w)) w).
Proof.
  unfold EventService.get_events. run_monad.
  destruct (db_fault w (db_calls w)); [done|]. by destruct w.
Qed.

Lemma eq_opt_spec (field : Event -> string) (o : option string) (e : Event) :
  EventService.eq_opt field o e = true <-> forall v, o = Some v -> field e = v.
Proof.
  destruct o as [v|]; cbn.
  - rewrite String.eqb_eq. split; [by intros -> ? [= <-] | by intros H; apply H].
  - by split.
Qed.

Lemma truthy_spec (o : option string) (v : string) :
  EventService.truthy o = Some v <-> o = Some v /\ v <> "".
Proof.
  destruct o as [[|c s]|]; cbn; split; try done.
  - by intros [[= <-] ?].
  - by intros [= <-].
  - by intros [? _].
  - by intros [? _].
Qed.

(** What it means for a row to match a query: every filter that is set,
    and is not the empty text, holds of the row. *)
Lemma matches_spec (query : EventStreamQuery) (e : Event) :
  EventService.matches query e = true <->
  (forall t, q_event_type query = Some t -> t <> "" -> event_type e = t) /\
  (forall t, q_aggregate_type query = Some t -> t <> "" -> aggregate_type e = t) /\
  (forall a, q_aggregate_id query = Some a -> aggregate_id e = a) /\
  (forall c, q_created_by query = Some c -> c <> "" -> created_by e = c) /\
  (forall c, q_correlation_id query = Some c -> correlation_id e = Some c) /\
  (forall b, q_is_processed query = Some b -> is_processed e = b).
Proof.
  unfold EventService.matches. rewrite !Bool.andb_true_iff, !eq_opt_spec.
  assert (Ht : forall (field : Event -> string) o,
             (forall v, EventService.truthy o = Some v -> field e = v) <->
             (forall v, o = Some v -> v <> "" -> field e = v)).
  { intros field o. split.
    - intros H v Ho Hv. apply H. by apply truthy_spec.
    - intros H v Hv. apply truthy_spec in Hv as [? ?]. by apply H. }
  rewrite !Ht.
  assert (Hc : match q_correlation_id query with
               | Some c => bool_decide (correlation_id e = Some c)
               | None => true
               end = true <->
               forall c, q_correlation_id query = Some c -> correlation_id e = Some c).
  { destruct (q_correlation_id query) as [c|]; [|by split].
    rewrite bool_decide_eq_true. split; [by intros ? ? [= <-] | by intros H; apply H]. }
  assert (Hp : match q_is_processed query with
               | Some b => Bool.eqb (is_processed e) b
               | None => true
               end = true <->
               forall b, q_is_processed query = Some b -> is_processed e = b).
  { destruct (q_is_processed query) as [b|]; [|by split].
    rewrite Bool.eqb_true_iff. split; [by intros ? ? [= <-] | by intros H; apply H]. }
  rewrite Hc, Hp. tauto.
Qed.

(** X2.  When its database call goes through, [get_events] answers a
    page of at most [limit] rows of the table, by falling event number,
    each of which satisfies every filter of the query that is set (a
    filter on a text column set to the empty text does not filter).
    With no offset, when the page is not full or the table has no more
    rows than [limit], no row is missing: every row of the table that
    satisfies the filters that are set is on the page. *)
Theorem get_events_page (query : EventStreamQuery) (w : World) :
  db_fault w (db_calls w) = None ->
  exists page w',
    EventService.get_events query w = (Return page, w') /\
    (length page <= q_limit query)%nat /\
    StronglySorted (fun a b => event_number b <= event_number a) page /\
    Forall (fun e =>
              e ∈ events w /\
              (forall t, q_event_type query = Some t -> t <> "" -> event_type e = t) /\
              (forall t, q_aggregate_type query = Some t -> t <> "" ->
                         aggregate_type e = t) /\
              (forall a, q_aggregate_id query = Some a -> aggregate_id e = a) /\
              (forall c, q_created_by query = Some c -> c <> "" -> created_by e = c) /\
              (forall c, q_correlation_id query = Some c ->
                         correlation_id e = Some c) /\
              (forall b, q_is_processed query = Some b -> is_processed e = b)) page /\
    (q_offset query = 0%nat ->
     (length page < q_limit query)%nat \/ (length (events w) <= q_limit query)%nat ->
     forall e,
       e ∈ events w ->
       (forall t, q_event_type query = Some t -> t <> "" -> event_type e = t) ->
       (forall t, q_aggregate_type query = Some t -> t <> "" -> aggregate_type e = t) ->
       (forall a, q_aggregate_id query = Some a -> aggregate_id e = a) ->
       (forall c, q_created_by query = Some c -> c <> "" -> created_by e = c) ->
       (forall c, q_correlation_id query = Some c -> correlation_id e = Some c) ->
       (forall b, q_is_processed query = Some b -> is_processed e = b) ->
       e ∈ page).
Proof.
  intros Hok. rewrite get_events_run, Hok. do 2 eexists. split; [reflexivity|].
  set (l := order_desc _).
  assert (Hs : StronglySorted by_event_number_desc l)
    by (apply StronglySorted_merge_sort; apply _).
  assert (Hl : length l = length (List.filter (EventService.matches query) (events w)))
    by (unfold l, order_desc; by rewrite merge_sort_Permutation).
  split; [rewrite length_take; lia|]. split; [|split].
  - rewrite <- (take_drop (q_offset query) l) in Hs.
    apply StronglySorted_app_1_r in Hs.
    rewrite <- (take_drop (q_limit query) (drop _ l)) in Hs.
    by apply StronglySorted_app_1_l in Hs.
  - rewrite Forall_forall. intros e Hin.
    apply subseteq_take, subseteq_drop in Hin. unfold l, order_desc in Hin.
    rewrite merge_sort_Permutation in Hin.
    apply elem_of_bool_filter in Hin as [Hin Hm]. split; [done|].
    by apply matches_spec.
  - intros Hoff Hroom e Hin H1 H2 H3 H4 H5 H6. rewrite Hoff, drop_0 in Hroom |- *.
    assert (Hfit : (length l <= q_limit query)%nat).
    { destruct Hroom as [Hroom|Hroom].
      - rewrite length_take in Hroom. lia.
      - pose proof (List.filter_length_le (EventService.matches query) (events w)). lia. }
    rewrite take_ge by done.
    unfold l, order_desc. rewrite merge_sort_Permutation.
    apply elem_of_bool_filter. split; [done|]. apply matches_spec. by repeat split.
Qed.

(** A table with one processed and one failed event, asked for its
    processed events: the processed one is on the page, and only it. *)
Lemma get_events_page_witness :
  db_fault (Sample.world Sample.mixed) (db_calls (Sample.world Sample.mixed)) = None /\
  exists page w',
    EventService.get_events
      {| q_event_type := None; q_aggregate_type := None; q_aggregate_id := None;
         q_created_by := None; q_correlation_id := None;
         q_is_processed := Some true; q_limit := 10; q_offset := 0 |}
      (Sample.world Sample.mixed) = (Return page, w') /\
    Sample.done_already ∈ page /\
    Forall (fun e => is_processed e = true) page.
Proof.
  split; [reflexivity|].
  destruct (get_events_page
              {| q_event_type := None; q_aggregate_type := None; q_aggregate_id := None;
                 q_created_by := None; q_correlation_id := None;
                 q_is_processed := Some true; q_limit := 10; q_offset := 0 |}
              (Sample.world Sample.mixed) eq_refl)
    as (page & w' & Hrun & _ & _ & Hall & Hcomplete).
  exists page, w'. split; [exact Hrun|]. split.
  - apply (Hcomplete eq_refl); try done.
    + right. cbn. lia.
    + apply elem_of_cons. by left.
    + by intros b [= <-].
  - eapply Forall_impl; [exact Hall|]. cbn.
    intros e (_ & _ & _ & _ & _ & _ & Hp). by apply Hp.
Defined.

(** X3.  [get_event_by_id] answers a row of the table with the id asked
    for when there is one and the call goes through; when the call goes
    through and no row has the id it raises the 404 error that names
    the id; when the call fails it raises a 500 error that carries the
    text of the failure. *)
Theorem get_event_by_id_cases (event_id : UUID) (w : World) :
  match db_fault w (db_calls w) with
  | Some msg =>
      fst (EventService.get_event_by_id event_id w) =
        Raise (HTTPException 500 ("Failed to get event: " +:+ msg))
  | None =>
      (exists e, fst (EventService.get_event_by_id event_id w) = Return e /\
                 e ∈ events w /\ id e = event_id) \/
      (fst (EventService.get_event_by_id event_id w) =
         Raise (HTTPException 404 ("Event " +:+ event_id +:+ " not found")) /\
       Forall (fun e => id e <> event_id) (events w))
  end.
Proof.
  rewrite get_event_by_id_run. cbn [fst].
  destruct (db_fault w (db_calls w)) as [msg|]; [done|].
  destruct (List.filter _ _) as [|row rest] eqn:Hrows.
  - right. split; [done|]. rewrite Forall_forall. intros e Hin Hid.
    assert (He : e ∈ List.filter (EventService.has_id event_id) (events w)).
    { apply elem_of_bool_filter. split; [done|].
      unfold EventService.has_id. by apply String.eqb_eq. }
    rewrite Hrows in He. by apply elem_of_nil in He.
  - left. exists row. split; [done|].
    assert (He : row ∈ List.filter (EventService.has_id event_id) (events w))
      by (rewrite Hrows; apply elem_of_cons; by left).
    apply elem_of_bool_filter in He as [Hin Hid]. split; [done|].
    unfold EventService.has_id in Hid. by apply String.eqb_eq.
Qed.

(** ** Setting the processing status by hand *)


Lemma elem_of_has_id (event_id : UUID) (rows : list Event) (e : Event) :
  e ∈ List.filter (EventService.has_id event_id) rows <-> e ∈ rows /\ id e = event_id.
Proof.
  rewrite elem_of_bool_filter. unfold EventService.has_id. by rewrite String.eqb_eq.
Qed.





(** ** The history of an aggregate *)

Lemma lower_char_idempotent (c : ascii) :
  PyStr.lower_char (PyStr.lower_char c) = PyStr.lower_char c.
Proof. by destruct c as [[] [] [] [] [] [] [] []]. Qed.

Lemma lower_idempotent (s : string) : PyStr.lower (PyStr.lower s) = PyStr.lower s.
Proof.
  induction s as [|c s IH]; [done|]. simpl. by rewrite lower_char_idempotent, IH.
Qed.

(** X6.  When its database call goes through, [get_aggregate_history]
    answers the history entries of exactly the rows whose aggregate id
    is the one given and whose aggregate type is the given type in
    lower case, oldest first; the type it is given may be written in any
    case, the answer is the same. *)
Theorem get_aggregate_history_entries
        (aggregate_type_ : string) (aggregate_id_ : UUID) (w : World) :
  db_fault w (db_calls w) = None ->
  exists rows w',
    EventService.get_aggregate_history aggregate_type_ aggregate_id_ w =
      (Return (List.map EventService.history_entry rows), w') /\
    StronglySorted by_event_number rows /\
    (forall e, e ∈ rows <->
               e ∈ events w /\ aggregate_id e = aggregate_id_ /\
               aggregate_type e = PyStr.lower aggregate_type_) /\
    length rows =
      length (List.filter (fun e => bool_decide
                                      (aggregate_id e = aggregate_id_ /\
                                       aggregate_type e = PyStr.lower aggregate_type_))
                          (events w)) /\
    EventService.get_aggregate_history (PyStr.lower aggregate_type_) aggregate_id_ w =
    EventService.get_aggregate_history aggregate_type_ aggregate_id_ w.
Proof.
  intros Hok. unfold EventService.get_aggregate_history. run_monad.
  rewrite Hok, lower_idempotent. do 2 eexists. split; [reflexivity|].
  split; [apply StronglySorted_merge_sort; apply _|]. split; [|split; [|done]].
  - intros e. rewrite elem_of_order_asc, elem_of_bool_filter.
    unfold EventService.of_aggregate.
    rewrite Bool.andb_true_iff, !String.eqb_eq. tauto.
  - unfold order_asc. rewrite merge_sort_Permutation. f_equal.
    apply List.filter_ext. intros e. unfold EventService.of_aggregate.
    destruct (String.eqb_spec (aggregate_type e) (PyStr.lower aggregate_type_)),
      (String.eqb_spec (aggregate_id e) aggregate_id_); cbn;
      symmetry; try (by apply bool_decide_eq_true);
      apply bool_decide_eq_false; tauto.
Qed.

Lemma get_aggregate_history_entries_witness :
  db_fault (Sample.world Sample.mixed) (db_calls (Sample.world Sample.mixed)) = None /\
  exists rows w',
    EventService.get_aggregate_history "PRODUCT" "7d3c2a8e-0b1f-4c6d-9e5a-2f4b6c8d0e1f"
      (Sample.world Sample.mixed) =
      (Return (List.map EventService.history_entry rows), w') /\
    length rows = 2%nat.
Proof.
  split; [reflexivity|].
  destruct (get_aggregate_history_entries "PRODUCT" "7d3c2a8e-0b1f-4c6d-9e5a-2f4b6c8d0e1f"
              (Sample.world Sample.mixed) eq_refl)
    as (rows & w' & Hrun & _ & _ & Hlen & _).
  exists rows, w'. split; [exact Hrun | exact Hlen].
Defined.

(** * Further properties of the batch runner *)

(** ** What a batch does to the rows *)

Lemma status_path_id rs e e' : status_path rs e e' -> id e' = id e.
Proof. induction 1; by cbn. Qed.

Lemma status_path_frozen rs e e' : status_path rs e e' -> frozen e' = frozen e.
Proof. induction 1 as [|e' now r _ IH|e' msg r _ IH]; [done| |]; by rewrite <- IH. Qed.

Lemma status_path_mono rs rs' e e' :
  (forall r, r ∈ rs -> r ∈ rs') -> status_path rs e e' -> status_path rs' e e'.
Proof.
  intros Hsub. induction 1; [apply path_same| |].
  - eapply path_processed; eauto.
  - eapply path_error; eauto.
Qed.

Lemma status_path_trans rs1 rs2 e e1 e2 :
  status_path rs1 e e1 -> status_path rs2 e1 e2 -> status_path (rs1 ++ rs2) e e2.
Proof.
  intros H1 H2. pose proof (status_path_id _ _ _ H1) as Hid.
  induction H2 as [|e2 now r _ IH Hin Hs Hr|e2 msg r _ IH Hin Hs Hr Herr].
  - eapply status_path_mono; [|exact H1]. intros r Hr. apply elem_of_app. by left.
  - eapply path_processed; [exact IH| |exact Hs|congruence].
    apply elem_of_app. by right.
  - eapply path_error; [exact IH| |exact Hs|congruence|exact Herr].
    apply elem_of_app. by right.
Qed.

Lemma status_path_untouched rs e e' :
  Forall (fun r => event_id r <> id e) rs -> status_path rs e e' -> e' = e.
Proof.
  rewrite Forall_forall. intros Hno. induction 1 as [|? ? r _ _ Hin _ Hr|? ? r _ _ Hin _ Hr _];
    [done| |]; by destruct (Hno r Hin).
Qed.

Lemma status_path_processed rs e e' :
  status_path rs e e' -> is_processed e' = true ->
  e' = e \/ exists r, r ∈ rs /\ success r = true /\ event_id r = id e.
Proof.
  destruct 1 as [|e' now r _ Hin Hs Hr|e' msg r _ Hin Hs Hr Herr]; [by left| |done].
  intros _. right. by exists r.
Qed.

Lemma status_path_clean rs e e' : status_path rs e e' -> clean e -> clean e'.
Proof. destruct 1; [done| |]; by intros _ ?. Qed.

Lemma Forall2_compose {A} (P Q R : A -> A -> Prop) (l1 l2 l3 : list A) :
  (forall a b c, P a b -> Q b c -> R a c) ->
  Forall2 P l1 l2 -> Forall2 Q l2 l3 -> Forall2 R l1 l3.
Proof.
  intros H H12. revert l3. induction H12 as [|a b l1 l2 Hab _ IH]; intros l3 H23.
  - inversion H23. constructor.
  - inversion H23 as [|? c ? l3' Hbc H23']; subst. constructor; eauto.
Qed.

Lemma Forall2_same {A} (P : A -> A -> Prop) (l : list A) :
  (forall a, P a a) -> Forall2 P l l.
Proof. intros H. apply Forall_Forall2_diag, Forall_forall. by intros a _. Qed.

(** One run of the dispatcher writes the status of its event's rows, in
    the way its result says. *)
Lemma process_event_path (event : Event) (w : World) :
  exists r w',
    process_event event w = (Return r, w') /\
    event_id r = id event /\
    Forall2 (status_path [r]) (events w) (events w').
Proof.
  destruct (process_event_run event w) as (r & w' & Hrun & Hid & _ & _ & _ & Hcase).
  exists r, w'. split; [done|]. split; [done|].
  assert (Hr : r ∈ [r]) by (apply elem_of_cons; by left).
  destruct (getattr attributes (handler_name event)) as [h|].
  - destruct (h event) as [ops|e].
    + destruct Hcase as (Hs & _ & _ & _ & _ & _ & ->).
      destruct (db_fault w (db_calls w));
        [apply Forall2_same; intros; apply path_same|].
      apply Forall2_patched. intros e.
      destruct (String.eqb_spec (id e) (id event)); [|apply path_same].
      eapply path_processed; [apply path_same|exact Hr|done|congruence].
    + destruct Hcase as (Hs & Herr & _ & _ & _ & _ & ->).
      destruct (db_fault w (db_calls w));
        [apply Forall2_same; intros; apply path_same|].
      apply Forall2_patched. intros e0.
      destruct (String.eqb_spec (id e0) (id event)); [|apply path_same].
      eapply path_error; [apply path_same|exact Hr|done|congruence|done].
  - destruct Hcase as (_ & _ & _ & _ & -> & _).
    apply Forall2_same; intros; apply path_same.
Qed.

Lemma process_next_path (evs : list Event) (t : tally) (w : World) :
  exists rs w',
    for_each evs process_next t w = (Return (tally_plus t rs), w') /\
    Forall2 (status_path rs) (events w) (events w').
Proof.
  revert t w. induction evs as [|ev evs IH]; intros t w.
  - exists [], w. cbn. rewrite tally_plus_nil. split; [done|].
    apply Forall2_same; intros; apply path_same.
  - destruct (process_event_path ev w) as (r & w1 & Hrun & _ & H1).
    destruct (IH (count_result r t) w1) as (rs & w' & Hloop & H2).
    exists (r :: rs), w'. cbn [for_each]. unfold bind at 1, process_next at 1.
    unfold bind at 1. rewrite Hrun. unfold ret at 1. rewrite Hloop.
    split; [by rewrite count_result_plus, tally_plus_plus|].
    eapply Forall2_compose; [|exact H1|exact H2].
    intros a b c Hab Hbc. exact (status_path_trans [r] rs a b c Hab Hbc).
Qed.

(** A batch that answers a result got its page. *)
Lemma process_pending_events_fetched (limit : nat) (w w' : World)
      (b : BatchProcessingResult) :
  process_pending_events limit w = (Return b, w') ->
  db_fault w (db_calls w) = None.
Proof.
  unfold process_pending_events.
  unfold bind at 1, time_time at 1. unfold try_except, bind at 1.
  rewrite get_unprocessed_events_run. cbn [db_fault db_calls with_ticks].
  destruct (db_fault w (db_calls w)); [|done]. by run_monad.
Qed.

Lemma process_pending_events_path (limit : nat) (w w' : World)
      (b : BatchProcessingResult) :
  process_pending_events limit w = (Return b, w') ->
  Forall2 (status_path (results b)) (events w) (events w').
Proof.
  intros Hrun. pose proof (process_pending_events_fetched _ _ _ _ Hrun) as Hok.
  revert Hrun. unfold process_pending_events.
  unfold bind at 1, time_time at 1. unfold try_except, bind at 1.
  rewrite get_unprocessed_events_run. cbn [db_fault db_calls with_ticks].
  rewrite Hok. destruct (pending limit _) as [|ev evs].
  - unfold ret. intros [= <- <-]. cbn. apply Forall2_same; intros; apply path_same.
  - destruct (process_next_path (ev :: evs) empty_tally
                (with_db_calls (S (db_calls w)) (with_ticks (S (ticks w)) w)))
      as (rs & w1 & Hloop & Hpath).
    unfold bind at 1. rewrite Hloop. unfold bind, time_time, ret.
    intros [= <- <-]. by cbn in *.
Qed.

(** One turn of the loop over ids: one result for the id, or none when
    the event is skipped, which takes that no force is asked. *)
Lemma process_one_path (force : bool) (event_id_ : UUID) (t : tally) (w : World) :
  exists rs w',
    process_one force event_id_ t w = (Return (tally_plus t rs), w') /\
    Forall2 (status_path rs) (events w) (events w') /\
    (List.map event_id rs = [event_id_] \/ (rs = [] /\ force = false)).
Proof.
  unfold process_one, try_except. unfold bind at 1.
  rewrite get_event_by_id_run.
  destruct (db_fault w (db_calls w)) as [msg|].
  { run_monad.
    match goal with |- context [t_results t ++ [?r]] =>
      exists [r]; rewrite <- (failed_result_plus t r) by reflexivity end.
    eexists. split; [reflexivity|]. split; [|by left].
    apply Forall2_same; intros; apply path_same. }
  destruct (List.filter _ _) as [|row rest] eqn:Hrows.
  { run_monad.
    match goal with |- context [t_results t ++ [?r]] =>
      exists [r]; rewrite <- (failed_result_plus t r) by reflexivity end.
    eexists. split; [reflexivity|]. split; [|by left].
    apply Forall2_same; intros; apply path_same. }
  assert (Hid : id row = event_id_).
  { assert (He : row ∈ List.filter (EventService.has_id event_id_) (events w))
      by (rewrite Hrows; apply elem_of_cons; by left).
    by apply elem_of_has_id in He as [_ ?]. }
  destruct (is_processed row && negb force) eqn:Hskip.
  - run_monad. eexists [], _. rewrite tally_plus_nil. split; [reflexivity|].
    split; [apply Forall2_same; intros; apply path_same|]. right. split; [done|].
    apply Bool.andb_true_iff in Hskip as [_ Hf]. by destruct force.
  - destruct (process_event_path row (with_db_calls (S (db_calls w)) w))
      as (r & w' & Hrun & Hrid & Hpath).
    unfold bind. rewrite Hrun. unfold ret. exists [r], w'.
    rewrite count_result_plus. split; [done|]. split; [done|]. left.
    cbn. by rewrite Hrid, Hid.
Qed.

Lemma process_one_loop_path (force : bool) (ids : list UUID) (t : tally) (w : World) :
  exists rs w',
    for_each ids (process_one force) t w = (Return (tally_plus t rs), w') /\
    Forall2 (status_path rs) (events w) (events w') /\
    List.map event_id rs `sublist_of` ids /\
    (force = true -> List.map event_id rs = ids).
Proof.
  revert t w. induction ids as [|i ids IH]; intros t w.
  - exists [], w. cbn. rewrite tally_plus_nil. split; [done|].
    split; [apply Forall2_same; intros; apply path_same|]. by split.
  - destruct (process_one_path force i t w) as (rs1 & w1 & Hone & H1 & Hids1).
    destruct (IH (tally_plus t rs1) w1) as (rs2 & w2 & Hloop & H2 & Hsub & Hall).
    exists (rs1 ++ rs2), w2. cbn [for_each]. unfold bind. rewrite Hone, Hloop.
    rewrite tally_plus_plus. split; [done|]. split; [|split].
    + eapply Forall2_compose; [|exact H1|exact H2].
      intros a b c Hab Hbc. exact (status_path_trans rs1 rs2 a b c Hab Hbc).
    + rewrite List.map_app. destruct Hids1 as [->|[-> _]]; cbn.
      * by apply sublist_skip.
      * by apply sublist_cons.
    + intros Hf. rewrite List.map_app, (Hall Hf).
      destruct Hids1 as [->|[_ ?]]; [done|congruence].
Qed.

Lemma process_specific_events_path (ids : list UUID) (force : bool) (w : World) :
  exists b w',
    process_specific_events ids force w = (Return b, w') /\
    Forall2 (status_path (results b)) (events w) (events w') /\
    List.map event_id (results b) `sublist_of` ids /\
    (force = true -> List.map event_id (results b) = ids).
Proof.
  unfold process_specific_events. unfold bind at 1, time_time at 1.
  unfold try_except, bind at 1.
  destruct (process_one_loop_path force ids empty_tally (with_ticks (S (ticks w)) w))
    as (rs & w1 & Hloop & Hpath & Hsub & Hall).
  rewrite Hloop. unfold bind, time_time, ret. do 2 eexists.
  split; [reflexivity|]. by cbn in *.
Qed.

(** X7.  A batch, whether over the pending events or over given ids,
    writes nothing but the processing status: in the table it leaves,
    every row stands where it stood and has all its other columns as
    before, and a row of an event for which the batch has no result is
    left exactly as it was. *)
Theorem batches_write_status_only :
  (forall (limit : nat) (w w' : World) (b : BatchProcessingResult),
      process_pending_events limit w = (Return b, w') ->
      Forall2 (fun e e' =>
                 frozen e' = frozen e /\
                 (Forall (fun r => event_id r <> id e) (results b) -> e' = e))
              (events w) (events w')) /\
  (forall (ids : list UUID) (force : bool) (w w' : World) (b : BatchProcessingResult),
      process_specific_events ids force w = (Return b, w') ->
      Forall2 (fun e e' =>
                 frozen e' = frozen e /\
                 (Forall (fun r => event_id r <> id e) (results b) -> e' = e))
              (events w) (events w')).
Proof.
  split.
  - intros limit w w' b Hrun.
    eapply Forall2_impl; [exact (process_pending_events_path _ _ _ _ Hrun)|].
    intros e e' Hp. split; [by eapply status_path_frozen|].
    intros Hno. by eapply status_path_untouched.
  - intros ids force w w' b Hrun.
    destruct (process_specific_events_path ids force w) as (b0 & w0 & Hrun0 & Hp & _).
    rewrite Hrun in Hrun0. injection Hrun0 as <- <-.
    eapply Forall2_impl; [exact Hp|].
    intros e e' Hpath. split; [by eapply status_path_frozen|].
    intros Hno. by eapply status_path_untouched.
Qed.

Lemma Forall2_frozen_map (P : Event -> Event -> Prop) (l l' : list Event) :
  Forall2 (fun e e' => frozen e' = frozen e /\ P e e') l l' ->
  List.map frozen l' = List.map frozen l.
Proof. induction 1 as [|e e' l l' [He _] _ IH]; [done|]. cbn. by rewrite He, IH. Qed.

(** A batch over a price change and a stock update, with an order that
    was processed before standing between them. *)
Lemma batches_write_status_only_witness :
  exists b w',
    process_pending_events 100
      (Sample.world [Sample.stock_updated; Sample.done_already; Sample.price_changed]) =
      (Return b, w') /\
    List.map frozen (events w') =
      List.map frozen [Sample.stock_updated; Sample.done_already; Sample.price_changed].
Proof.
  assert (Hrun : exists b w',
             process_pending_events 100
               (Sample.world [Sample.stock_updated; Sample.done_already;
                              Sample.price_changed]) = (Return b, w')).
  { eexists _, _. vm_compute; reflexivity. }
  destruct Hrun as (b & w' & Hrun).
  exists b, w'. split; [exact Hrun|].
  exact (Forall2_frozen_map _ _ _ (proj1 batches_write_status_only _ _ _ _ Hrun)).
Defined.

(** X8.  A batch never marks an event processed without a success: a
    row that was unprocessed before the batch and is processed after it
    is the row of an event for which the batch has a success result. *)
Theorem processed_only_after_success :
  (forall (limit : nat) (w w' : World) (b : BatchProcessingResult),
      process_pending_events limit w = (Return b, w') ->
      Forall2 (fun e e' =>
                 is_processed e = false -> is_processed e' = true ->
                 exists r, r ∈ results b /\ success r = true /\ event_id r = id e)
              (events w) (events w')) /\
  (forall (ids : list UUID) (force : bool) (w w' : World) (b : BatchProcessingResult),
      process_specific_events ids force w = (Return b, w') ->
      Forall2 (fun e e' =>
                 is_processed e = false -> is_processed e' = true ->
                 exists r, r ∈ results b /\ success r = true /\ event_id r = id e)
              (events w) (events w')).
Proof.
  assert (Hstep : forall rs e e',
             status_path rs e e' -> is_processed e = false -> is_processed e' = true ->
             exists r, r ∈ rs /\ success r = true /\ event_id r = id e).
  { intros rs e e' Hp Hu Hd.
    destruct (status_path_processed _ _ _ Hp Hd) as [->|?]; [congruence|done]. }
  split.
  - intros limit w w' b Hrun.
    eapply Forall2_impl; [exact (process_pending_events_path _ _ _ _ Hrun)|].
    intros e e'. apply Hstep.
  - intros ids force w w' b Hrun.
    destruct (process_specific_events_path ids force w) as (b0 & w0 & Hrun0 & Hp & _).
    rewrite Hrun in Hrun0. injection Hrun0 as <- <-.
    eapply Forall2_impl; [exact Hp|]. intros e e'. apply Hstep.
Qed.

(** The batch over an event without handler and a faulty update marks
    neither of them processed. *)
Lemma processed_only_after_success_witness :
  exists b w',
    process_pending_events 100 (Sample.world [Sample.sparkle; Sample.bad_update]) =
      (Return b, w') /\
    successful b = 0 /\
    Forall2 (fun e e' =>
               is_processed e = false -> is_processed e' = true ->
               exists r, r ∈ results b /\ success r = true /\ event_id r = id e)
            [Sample.sparkle; Sample.bad_update] (events w').
Proof.
  assert (Hrun : exists b w',
             process_pending_events 100
               (Sample.world [Sample.sparkle; Sample.bad_update]) = (Return b, w') /\
             successful b = 0).
  { eexists _, _. split; [vm_compute; reflexivity|reflexivity]. }
  destruct Hrun as (b & w' & Hrun & Hnone).
  exists b, w'. split; [exact Hrun|]. split; [exact Hnone|].
  exact (proj1 processed_only_after_success _ _ _ _ Hrun).
Defined.

(** X9.  The dispatcher keeps processed events free of error: when
    every processed row of the table carries no error before a batch,
    the same holds after it, whatever the handlers and the database do.
    The table does not keep this by itself: [update_event_processing]
    can set the flag and an error text together. *)
Theorem processed_events_stay_clean :
  (forall (limit : nat) (w w' : World) (b : BatchProcessingResult),
      process_pending_events limit w = (Return b, w') ->
      Forall clean (events w) -> Forall clean (events w')) /\
  (forall (ids : list UUID) (force : bool) (w w' : World) (b : BatchProcessingResult),
      process_specific_events ids force w = (Return b, w') ->
      Forall clean (events w) -> Forall clean (events w')) /\
  (exists w,
      Forall clean (events w) /\
      ~ Forall clean
          (events (snd (EventService.update_event_processing "e-0001"
                          {| u_is_processed := true;
                             u_processing_error := Some "kept for the record" |} w)))).
Proof.
  assert (Hstep : forall rs l l',
             Forall2 (status_path rs) l l' -> Forall clean l -> Forall clean l').
  { intros rs l l'. induction 1 as [|e e' l l' Hp _ IH]; [done|].
    intros Hc. apply Forall_cons in Hc as [Hc Hl]. constructor; [|by apply IH].
    by eapply status_path_clean. }
  split; [|split].
  - intros limit w w' b Hrun. apply (Hstep (results b)).
    exact (process_pending_events_path _ _ _ _ Hrun).
  - intros ids force w w' b Hrun.
    destruct (process_specific_events_path ids force w) as (b0 & w0 & Hrun0 & Hp & _).
    rewrite Hrun in Hrun0. injection Hrun0 as <- <-. by apply (Hstep (results b)).
  - exists (Sample.world [Sample.pump]). split.
    + by constructor.
    + intros H. vm_compute in H. apply Forall_cons in H as [H _].
      specialize (H eq_refl). discriminate.
Qed.

Lemma processed_events_stay_clean_witness :
  exists b w',
    process_pending_events 100 (Sample.world [Sample.pump; Sample.bad_update]) =
      (Return b, w') /\
    Forall clean [Sample.pump; Sample.bad_update] /\
    Forall clean (events w').
Proof.
  assert (Hrun : exists b w',
             process_pending_events 100
               (Sample.world [Sample.pump; Sample.bad_update]) = (Return b, w')).
  { eexists _, _. vm_compute; reflexivity. }
  destruct Hrun as (b & w' & Hrun).
  assert (Hc : Forall clean [Sample.pump; Sample.bad_update])
    by (repeat constructor; intros H; discriminate H).
  exists b, w'. split; [exact Hrun|]. split; [exact Hc|].
  exact (proj1 processed_events_stay_clean _ _ _ _ Hrun Hc).
Defined.

Lemma NoDup_map_inj {A B} (f : A -> B) (l : list A) (x y : A) :
  NoDup (List.map f l) -> x ∈ l -> y ∈ l -> f x = f y -> x = y.
Proof.
  induction l as [|a l IH]; cbn; intros Hnd Hx Hy Hf.
  - by apply elem_of_nil in Hx.
  - apply NoDup_cons in Hnd as [Hna Hnd].
    assert (Hin : forall z, z ∈ l -> f z ∈ List.map f l).
    { intros z Hz. rewrite list_elem_of_In. apply in_map. by rewrite <- list_elem_of_In. }
    apply elem_of_cons in Hx as [->|Hx]; apply elem_of_cons in Hy as [->|Hy].
    + done.
    + destruct Hna. rewrite Hf. by apply Hin.
    + destruct Hna. rewrite <- Hf. by apply Hin.
    + by apply IH.
Qed.

Lemma Forall2_elem_of_sub {A B} (P : A -> B -> Prop) (l0 l : list A) (k : list B) :
  (forall x, x ∈ l -> x ∈ l0) ->
  Forall2 P l k -> Forall2 (fun x y => x ∈ l0 /\ P x y) l k.
Proof.
  intros Hsub H. induction H as [|x y l k Hxy _ IH]; constructor.
  - split; [|done]. apply Hsub, elem_of_cons. by left.
  - apply IH. intros z Hz. apply Hsub, elem_of_cons. by right.
Qed.

Lemma Forall2_elem_of_l {A B} (P : A -> B -> Prop) (l : list A) (k : list B) :
  Forall2 P l k -> Forall2 (fun x y => x ∈ l /\ P x y) l k.
Proof. by apply Forall2_elem_of_sub. Qed.

(** X10.  When the ids of the table are distinct, a batch over the
    pending events leaves every event that was processed before it
    exactly as it was, whatever the handlers and the database do. *)
Theorem pending_batch_spares_processed
        (limit : nat) (w w' : World) (b : BatchProcessingResult) :
  NoDup (List.map id (events w)) ->
  process_pending_events limit w = (Return b, w') ->
  Forall2 (fun e e' => is_processed e = true -> e' = e) (events w) (events w').
Proof.
  intros Hnd Hrun.
  pose proof (process_pending_events_fetched _ _ _ _ Hrun) as Hok.
  destruct (process_pending_events_run limit w Hok)
    as (b0 & w0 & Hrun0 & _ & _ & _ & Hids & _).
  rewrite Hrun in Hrun0. injection Hrun0 as <- <-.
  eapply Forall2_impl;
    [exact (Forall2_elem_of_l _ _ _ (process_pending_events_path _ _ _ _ Hrun))|].
  intros e e' [Hin Hp] Hdone. cbn in Hp.
  eapply status_path_untouched; [|exact Hp].
  rewrite Forall_forall. intros r Hr Heq.
  assert (Hi : id e ∈ List.map id (pending limit w)).
  { rewrite <- Hids, <- Heq, list_elem_of_In. apply in_map. by rewrite <- list_elem_of_In. }
  rewrite list_elem_of_In, in_map_iff in Hi. destruct Hi as (p & Hpid & Hp0).
  rewrite <- list_elem_of_In in Hp0.
  pose proof (pending_unprocessed limit w) as Hall. rewrite Forall_forall in Hall.
  destruct (Hall p Hp0) as [Hpin Hpu].
  assert (p = e) by (by apply (NoDup_map_inj id (events w))). congruence.
Qed.

Lemma pending_batch_spares_processed_witness :
  NoDup (List.map id [Sample.stock_updated; Sample.done_already; Sample.price_changed]) /\
  exists b w',
    process_pending_events 100
      (Sample.world [Sample.stock_updated; Sample.done_already; Sample.price_changed]) =
      (Return b, w') /\
    Forall2 (fun e e' => is_processed e = true -> e' = e)
            [Sample.stock_updated; Sample.done_already; Sample.price_changed]
            (events w').
Proof.
  assert (Hnd : NoDup (List.map id [Sample.stock_updated; Sample.done_already;
                                    Sample.price_changed])).
  { cbn. repeat constructor; rewrite ?elem_of_cons, ?elem_of_nil; intros H;
      repeat destruct H as [H|H]; by try discriminate H. }
  split; [exact Hnd|].
  assert (Hrun : exists b w',
             process_pending_events 100
               (Sample.world [Sample.stock_updated; Sample.done_already;
                              Sample.price_changed]) = (Return b, w')).
  { eexists _, _. vm_compute; reflexivity. }
  destruct Hrun as (b & w' & Hrun).
  exists b, w'. split; [exact Hrun|].
  exact (pending_batch_spares_processed 100
           (Sample.world [Sample.stock_updated; Sample.done_already;
                          Sample.price_changed]) w' b Hnd Hrun).
Defined.

(** ** Failures of the database around a batch *)

(** X11.  When the fetch of the pending events fails,
    [process_pending_events] raises the 500 error of the event service,
    which carries the text of the failure, after logging one error
    line; the dispatcher is not called and the table is left as it
    was. *)
Theorem process_pending_events_fetch_fails (limit : nat) (w : World) (msg : string) :
  db_fault w (db_calls w) = Some msg ->
  exists w',
    process_pending_events limit w =
      (Raise (HTTPException 500 ("Failed to get unprocessed events: " +:+ msg)), w') /\
    events w' = events w /\
    trace w' = trace w /\
    log w' = log w ++
      [{| level := ERROR;
          message := "Error in batch processing: " +:+
                     exn_str (HTTPException 500
                                ("Failed to get unprocessed events: " +:+ msg)) |}].
Proof.
  intros Hf. unfold process_pending_events.
  unfold bind at 1, time_time at 1. unfold try_except, bind at 1.
  rewrite get_unprocessed_events_run. cbn [db_fault db_calls with_ticks].
  rewrite Hf. run_monad. by eexists.
Qed.

Lemma process_pending_events_fetch_fails_witness :
  exists w',
    process_pending_events 100
      {| events := [Sample.pump]; clock := fun k => inject_Z (Z.of_nat k); ticks := 0;
         db_fault := fun _ => Some "connection refused"; db_calls := 0;
         log := []; trace := [] |} =
      (Raise (HTTPException 500
                "Failed to get unprocessed events: connection refused"), w') /\
    events w' = [Sample.pump] /\ trace w' = [].
Proof.
  destruct (process_pending_events_fetch_fails 100
              {| events := [Sample.pump]; clock := fun k => inject_Z (Z.of_nat k);
                 ticks := 0; db_fault := fun _ => Some "connection refused";
                 db_calls := 0; log := []; trace := [] |}
              "connection refused" eq_refl) as (w' & Hrun & Hev & Htr & _).
  exists w'. split; [exact Hrun|]. split; [exact Hev | exact Htr].
Defined.

(** X12.  In a turn of the loop of [process_specific_events], when the
    lookup of the event raises, be it because no event has the id or
    because the database call fails, the turn does not raise: it adds
    one failure result for the id, with the type [unknown] and the text
    of the exception, counts one more failure, logs one error line, and
    leaves the table and the dispatcher alone; the loop goes on. *)
Theorem process_specific_events_lookup_fails
        (force : bool) (event_id_ : UUID) (t : tally) (w w1 : World) (e : exn) :
  EventService.get_event_by_id event_id_ w = (Raise e, w1) ->
  exists w',
    process_one force event_id_ t w =
      (Return {| t_results :=
                   t_results t ++
                   [{| event_id := event_id_;
                       result_event_type := "unknown";
                       success := false;
                       error := Some (exn_str e);
                       operations_executed := [];
                       processing_time_ms := 0 |}];
                 t_successful := t_successful t;
                 t_failed := t_failed t + 1 |}, w') /\
    events w' = events w /\
    trace w' = trace w /\
    log w' = log w ++ [{| level := ERROR;
                          message := "Error processing event " +:+ event_id_ +:+
                                     ": " +:+ exn_str e |}].
Proof.
  intros Hget. unfold process_one, try_except. unfold bind at 1. rewrite Hget.
  rewrite get_event_by_id_run in Hget. injection Hget as _ <-.
  run_monad. by eexists.
Qed.

(** An id that no event has, at the head of a list of ids. *)
Lemma process_specific_events_lookup_fails_witness :
  exists w1 w',
    EventService.get_event_by_id "e-9999" (Sample.world [Sample.pump]) =
      (Raise (HTTPException 404 "Event e-9999 not found"), w1) /\
    process_one false "e-9999" empty_tally (Sample.world [Sample.pump]) =
      (Return {| t_results :=
                   [{| event_id := "e-9999";
                       result_event_type := "unknown";
                       success := false;
                       error := Some "404: Event e-9999 not found";
                       operations_executed := [];
                       processing_time_ms := 0 |}];
                 t_successful := 0;
                 t_failed := 1 |}, w') /\
    events w' = [Sample.pump] /\ trace w' = [].
Proof.
  destruct (process_specific_events_lookup_fails false "e-9999" empty_tally
              (Sample.world [Sample.pump]) _
              (HTTPException 404 "Event e-9999 not found") eq_refl)
    as (w' & Hone & Hev & Htr & _).
  eexists _, w'. split; [reflexivity|]. split; [exact Hone|].
  split; [exact Hev | exact Htr].
Defined.

(** X13.  [process_specific_events] answers its results in the order of
    the ids, with at most one result for each occurrence of an id; when
    [force_reprocess] is true nothing is skipped: there is exactly one
    result for each id of the list, in the order of the list. *)
Theorem process_specific_events_results_follow_ids
        (ids : list UUID) (force : bool) (w : World) :
  exists b w',
    process_specific_events ids force w = (Return b, w') /\
    List.map event_id (results b) `sublist_of` ids /\
    (force = true -> List.map event_id (results b) = ids).
Proof.
  destruct (process_specific_events_path ids force w) as (b & w' & Hrun & _ & Hsub & Hall).
  by exists b, w'.
Qed.

Lemma process_specific_events_results_follow_ids_witness :
  exists b w',
    process_specific_events ["e-0004"; "e-9999"; "e-0004"] true
      (Sample.world [Sample.done_already]) = (Return b, w') /\
    List.map event_id (results b) = ["e-0004"; "e-9999"; "e-0004"].
Proof.
  destruct (process_specific_events_results_follow_ids
              ["e-0004"; "e-9999"; "e-0004"] true (Sample.world [Sample.done_already]))
    as (b & w' & Hrun & _ & Hall).
  exists b, w'. split; [exact Hrun | exact (Hall eq_refl)].
Defined.

(** * Further properties of the dispatcher *)

Lemma getattr_elem_of (attrs : list (string * handler)) (name : string) (h : handler) :
  getattr attrs name = Some h -> (name, h) ∈ attrs.
Proof.
  induction attrs as [|[n h0] attrs IH]; cbn; [done|].
  destruct (String.eqb_spec n name) as [->|_].
  - intros [= ->]. apply elem_of_cons. by left.
  - intros H. apply elem_of_cons. right. by apply IH.
Qed.

Lemma measuring_handler_answers (key : string) (default : json) (label : string)
      (event : Event) :
  (exists op,
      match py_len (PyVal.dict_get (data event) key default) with
      | Raise e => Raise e
      | Return _ => Return [label +:+ aggregate_id event]
      end = Return [op]) \/
  (exists v,
      match py_len (PyVal.dict_get (data event) key default) with
      | Raise e => Raise e
      | Return _ => Return [label +:+ aggregate_id event]
      end = Raise (TypeError ("object of type '" +:+ PyVal.type_name v +:+
                              "' has no len()"))).
Proof.
  destruct (PyVal.dict_get (data event) key default) as [|b|z|text|s|items|items];
    cbn; try (left; by eexists); right.
  - by exists JNull.
  - by exists (JBool b).
  - by exists (JInt z).
  - by exists (JFloat text).
Qed.

Lemma handlers_answer : Forall handler_answers attributes.
Proof.
  unfold attributes. repeat (rewrite Forall_cons; split); try (by apply Forall_nil);
    intros event; cbn [fst snd];
    try (left; eexists; reflexivity).
  - destruct (measuring_handler_answers "changes" (JDict []) "Logged product update: " event)
      as [?|?]; [by left|right]. split; [|done].
    unfold measuring_handlers. rewrite !elem_of_cons. tauto.
  - destruct (measuring_handler_answers "items" (JList []) "Logged order creation: " event)
      as [?|?]; [by left|right]. split; [|done].
    unfold measuring_handlers. rewrite !elem_of_cons. tauto.
  - destruct (measuring_handler_answers "changes" (JDict []) "Logged profile update: " event)
      as [?|?]; [by left|right]. split; [|done].
    unfold measuring_handlers. rewrite !elem_of_cons. tauto.
Qed.

(** X14.  [process_event] answers, in every world, a result of one of
    three shapes: a success with no error and exactly one description;
    a failure with no description whose error says that the type has no
    handler; or a failure with no description whose error is that of
    [len] on a value without length, which takes one of the three
    handlers that measure a payload entry ([product.updated],
    [order.created], [customer.profile_updated]). *)
Theorem process_event_result_shapes (event : Event) (w : World) :
  exists r w',
    process_event event w = (Return r, w') /\
    ((success r = true /\ error r = None /\
      exists op, operations_executed r = [op]) \/
     (success r = false /\ operations_executed r = [] /\
      has_handler event = false /\
      error r = Some ("No handler for event type: " +:+ event_type event)) \/
     (success r = false /\ operations_executed r = [] /\
      handler_name event ∈ measuring_handlers /\
      exists v, error r = Some ("object of type '" +:+ PyVal.type_name v +:+
                                "' has no len()"))).
Proof.
  destruct (process_event_run event w) as (r & w' & Hrun & _ & _ & _ & _ & Hcase).
  exists r, w'. split; [done|]. unfold has_handler.
  destruct (getattr attributes (handler_name event)) as [h|] eqn:Hh.
  - apply getattr_elem_of in Hh.
    pose proof handlers_answer as Hall. rewrite Forall_forall in Hall.
    destruct (Hall _ Hh event) as [[op Hop]|[Hm [v Hv]]]; cbn [fst snd] in *.
    + rewrite Hop in Hcase. destruct Hcase as (Hs & He & Hops & _).
      left. repeat split; try done. by exists op.
    + rewrite Hv in Hcase. destruct Hcase as (Hs & He & Hops & _).
      right. right. repeat split; try done. by exists v.
  - destruct Hcase as (Hs & He & Hops & _). right. left. by repeat split.
Qed.

(** * Further properties of the statistics *)

Lemma bump_lookup (key k : string) (counts : gmap string Z) :
  EventService.bump key counts !! k =
  if decide (key = k) then Some (default 0 (counts !! k) + 1) else counts !! k.
Proof.
  unfold EventService.bump. destruct (decide (key = k)) as [->|Hne].
  - by rewrite lookup_insert_eq.
  - by rewrite lookup_insert_ne.
Qed.

Lemma occurrences_cons (field : Event -> string) (k : string) (e : Event)
      (rows : list Event) :
  occurrences field k (e :: rows) =
  (if decide (field e = k) then 1 else 0) + occurrences field k rows.
Proof.
  unfold occurrences. cbn. destruct (String.eqb_spec (field e) k);
    destruct (decide (field e = k)); try done; cbn [length]; lia.
Qed.

Lemma occurrences_nonneg (field : Event -> string) (k : string) (rows : list Event) :
  0 <= occurrences field k rows.
Proof. unfold occurrences. lia. Qed.

Lemma fold_bump_lookup (field : Event -> string) (rows : list Event)
      (counts : gmap string Z) (k : string) :
  fold_left (fun counts e => EventService.bump (field e) counts) rows counts !! k =
  if decide (occurrences field k rows = 0) then counts !! k
  else Some (default 0 (counts !! k) + occurrences field k rows).
Proof.
  revert counts. induction rows as [|e rows IH]; intros counts; [done|].
  cbn [fold_left]. rewrite IH, bump_lookup, occurrences_cons.
  pose proof (occurrences_nonneg field k rows).
  destruct (decide (field e = k)); repeat case_decide; try lia; try done.
  - cbn. f_equal. lia.
  - cbn. f_equal. lia.
Qed.

(** The counting loop of [get_event_stats] counts: a key is in the
    dictionary when some row has it, with the number of these rows. *)
Lemma count_by_lookup (field : Event -> string) (rows : list Event) (k : string) :
  EventService.count_by field rows !! k =
  if decide (occurrences field k rows = 0) then None
  else Some (occurrences field k rows).
Proof.
  unfold EventService.count_by. rewrite fold_bump_lookup, lookup_empty.
  case_decide; [done|]. cbn. f_equal; lia.
Qed.

(** X15.  When no database call fails, [get_event_stats] answers the
    number of rows, the number of unprocessed rows and their
    difference, which is the number of processed rows, and two
    dictionaries that give, for every event type and every aggregate
    type that occurs in the table, the number of rows that have it, and
    have no entry for a type that does not occur. *)
Theorem get_event_stats_counts (w : World) :
  reliable w ->
  exists st w',
    EventService.get_event_stats w = (Return st, w') /\
    EventService.total_events st = Z.of_nat (length (events w)) /\
    EventService.unprocessed_events st =
      Z.of_nat (length (List.filter EventService.unprocessed (events w))) /\
    EventService.processed_events st =
      Z.of_nat (length (List.filter is_processed (events w))) /\
    (forall k, EventService.event_types st !! k =
               if decide (occurrences event_type k (events w) = 0) then None
               else Some (occurrences event_type k (events w))) /\
    (forall k, EventService.aggregate_types st !! k =
               if decide (occurrences aggregate_type k (events w) = 0) then None
               else Some (occurrences aggregate_type k (events w))).
Proof.
  intros Hrel. unfold EventService.get_event_stats. run_monad.
  repeat (rewrite Hrel; cbn). do 2 eexists. split; [reflexivity|]. cbn.
  split; [done|]. split; [done|]. split; [|split; intros k; apply count_by_lookup].
  induction (events w) as [|e l IH]; [done|]. cbn [List.filter].
  unfold EventService.unprocessed at 1. destruct (is_processed e); cbn [negb length]; lia.
Qed.

Lemma get_event_stats_counts_witness :
  reliable (Sample.world Sample.mixed) /\
  exists st w',
    EventService.get_event_stats (Sample.world Sample.mixed) = (Return st, w') /\
    EventService.total_events st = 2 /\
    EventService.processed_events st = 1 /\
    EventService.event_types st !! "order.created" = Some 1 /\
    EventService.event_types st !! "order.placed" = None /\
    EventService.aggregate_types st !! "product" = Some 2.
Proof.
  assert (Hrel : reliable (Sample.world Sample.mixed)) by (intros k; reflexivity).
  split; [exact Hrel|].
  destruct (get_event_stats_counts (Sample.world Sample.mixed) Hrel)
    as (st & w' & Hrun & Htot & _ & Hdone & Hty & Hag).
  exists st, w'. split; [exact Hrun|]. split; [exact Htot|]. split; [exact Hdone|].
  split; [exact (Hty "order.created")|].
  split; [exact (Hty "order.placed") | exact (Hag "product")].
Defined.

Lemma filter_last_processed (rows : list Event) :
  List.filter (EventService.matches last_processed_query) rows =
  List.filter is_processed rows.
Proof.
  apply List.filter_ext. intros e. unfold EventService.matches. cbn.
  by destruct (is_processed e).
Qed.

Lemma length_filter_split (rows : list Event) :
  (length (List.filter is_processed rows) +
   length (List.filter EventService.unprocessed rows) = length rows)%nat.
Proof.
  induction rows as [|e rows IH]; [done|]. cbn [List.filter].
  unfold EventService.unprocessed at 1. destruct (is_processed e); cbn [negb length]; lia.
Qed.

(** X16.  When no database call fails, [get_stats] answers the number
    of processed rows and the number of unprocessed rows, which add up
    to the number of rows, and a success rate between 0 and 100: it is 0
    for an empty table and 100 when every row of a table that is not
    empty is processed. *)
Theorem get_stats_success_rate (w : World) :
  reliable w ->
  exists st w',
    get_stats w = (Return st, w') /\
    total_events_processed st = Z.of_nat (length (List.filter is_processed (events w))) /\
    events_pending st =
      Z.of_nat (length (List.filter EventService.unprocessed (events w))) /\
    total_events_processed st + events_pending st = Z.of_nat (length (events w)) /\
    Qle 0 (success_rate st) /\ Qle (success_rate st) 100 /\
    (events w = [] -> success_rate st = 0%Q) /\
    (events w <> [] -> Forall (fun e => is_processed e = true) (events w) ->
     Qeq (success_rate st) 100).
Proof.
  intros Hrel. destruct (get_stats_run w Hrel) as (w' & Hrun & _).
  do 2 eexists. split; [exact Hrun|]. cbn.
  pose proof (length_filter_split (events w)) as Hsplit.
  set (n := length (events w)) in *.
  set (u := length (List.filter EventService.unprocessed (events w))) in *.
  set (p := length (List.filter is_processed (events w))) in *.
  replace (Z.of_nat n - Z.of_nat u) with (Z.of_nat p) by lia.
  split; [done|]. split; [done|]. split; [lia|].
  assert (Hrate : forall q : positive,
             Z.of_nat n = Z.pos q ->
             Qle 0 (inject_Z (Z.of_nat p) / inject_Z (Z.pos q) * 100) /\
             Qle (inject_Z (Z.of_nat p) / inject_Z (Z.pos q) * 100) 100 /\
             (p = n -> Qeq (inject_Z (Z.of_nat p) / inject_Z (Z.pos q) * 100) 100)).
  { intros q Hq. unfold Qle, Qeq, Qdiv, Qmult, Qinv, inject_Z. cbn.
    split; [lia|]. split; [nia|]. intros ->. nia. }
  destruct (Z.of_nat n) as [|q|q] eqn:Hn; cbn [Z.ltb Z.compare].
  - split; [done|]. split; [done|]. split; [done|].
    intros Hne. destruct (events w); [done|]. subst n. cbn in Hn. lia.
  - destruct (Hrate q eq_refl) as (H0 & H100 & Hall).
    split; [done|]. split; [done|]. split.
    + intros He. subst n. rewrite He in Hn. cbn in Hn. lia.
    + intros _ Hdone. apply Hall. subst p n. f_equal.
      clear -Hdone. induction Hdone as [|e l He _ IH]; [done|].
      cbn. rewrite He. cbn. by rewrite IH.
  - lia.
Qed.

Lemma get_stats_success_rate_witness :
  reliable (Sample.world Sample.mixed) /\
  exists st w',
    get_stats (Sample.world Sample.mixed) = (Return st, w') /\
    total_events_processed st = 1 /\ events_pending st = 1 /\
    Qle 0 (success_rate st) /\ Qle (success_rate st) 100.
Proof.
  assert (Hrel : reliable (Sample.world Sample.mixed)) by (intros k; reflexivity).
  split; [exact Hrel|].
  destruct (get_stats_success_rate (Sample.world Sample.mixed) Hrel)
    as (st & w' & Hrun & Hp & Hu & _ & H0 & H100 & _).
  exists st, w'. split; [exact Hrun|]. split; [exact Hp|]. split; [exact Hu|].
  split; [exact H0 | exact H100].
Defined.

(** X17.  When no database call fails, the [last_processed_at] of
    [get_stats] is the processing time of a processed event that has
    the largest event number among the processed events, and nothing
    when no event is processed: it is taken by number, not by time. *)
Theorem get_stats_last_processed (w : World) :
  reliable w ->
  exists st w',
    get_stats w = (Return st, w') /\
    ((Forall (fun e => is_processed e = false) (events w) /\
      last_processed_at st = None) \/
     (exists e,
         e ∈ events w /\ is_processed e = true /\
         Forall (fun e' => is_processed e' = true ->
                           event_number e' <= event_number e) (events w) /\
         last_processed_at st = processed_at e)).
Proof.
  intros Hrel. destruct (get_stats_run w Hrel) as (w' & Hrun & _).
  do 2 eexists. split; [exact Hrun|]. cbn [last_processed_at].
  rewrite filter_last_processed. unfold order_desc.
  set (l := merge_sort _ _).
  assert (Hs : StronglySorted by_event_number_desc l)
    by (apply StronglySorted_merge_sort; apply _).
  assert (Hl : forall e, e ∈ l <-> e ∈ events w /\ is_processed e = true).
  { intros e. unfold l. by rewrite merge_sort_Permutation, elem_of_bool_filter. }
  destruct l as [|e l'].
  - left. split; [|done]. rewrite Forall_forall. intros e Hin.
    destruct (is_processed e) eqn:Hd; [|done].
    assert (He : e ∈ @nil Event) by (by apply Hl). by apply elem_of_nil in He.
  - right. exists e.
    assert (He : e ∈ e :: l') by (apply elem_of_cons; by left).
    apply Hl in He as [Hin Hd]. split; [done|]. split; [done|]. split; [|done].
    rewrite Forall_forall. intros e' Hin' Hd'.
    assert (He' : e' ∈ e :: l') by (by apply Hl).
    apply elem_of_cons in He' as [->|He']; [lia|].
    apply StronglySorted_inv in Hs as [_ Hall]. rewrite Forall_forall in Hall.
    exact (Hall e' He').
Qed.

(** The event numbered 2 was processed at time 10, before the event
    numbered 1, processed at time 50: the statistics answer 10. *)
Lemma get_stats_last_processed_witness :
  reliable (Sample.world Sample.out_of_order) /\
  exists st w',
    get_stats (Sample.world Sample.out_of_order) = (Return st, w') /\
    last_processed_at st = Some (inject_Z 10) /\
    List.map processed_at Sample.out_of_order = [Some (inject_Z 50); Some (inject_Z 10)].
Proof.
  assert (Hrel : reliable (Sample.world Sample.out_of_order)) by (intros k; reflexivity).
  split; [exact Hrel|].
  destruct (get_stats_last_processed (Sample.world Sample.out_of_order) Hrel)
    as (st & w' & Hrun & _).
  exists st, w'. split; [exact Hrun|]. split; [|reflexivity].
  assert (Hst : exists st0 w0,
             get_stats (Sample.world Sample.out_of_order) = (Return st0, w0) /\
             last_processed_at st0 = Some (inject_Z 10)).
  { eexists _, _. split; [vm_compute; reflexivity|reflexivity]. }
  destruct Hst as (st0 & w0 & Hrun0 & Hlast).
  rewrite Hrun in Hrun0. injection Hrun0 as -> _. exact Hlast.
Defined.

(** * Further properties of event creation *)

Lemma lower_length (s : string) : String.length (PyStr.lower s) = String.length s.
Proof. induction s as [|c s IH]; [done|]. simpl. by rewrite IH. Qed.

Lemma lower_append (a b : string) :
  PyStr.lower (a +:+ b) = PyStr.lower a +:+ PyStr.lower b.
Proof. induction a as [|c a IH]; [done|]. simpl. by rewrite IH. Qed.

Lemma lower_char_dot (c : ascii) :
  Ascii.eqb (PyStr.lower_char c) "." = Ascii.eqb c ".".
Proof. by destruct c as [[] [] [] [] [] [] [] []]. Qed.

Lemma contains_dot_lower (s : string) :
  PyStr.contains "." (PyStr.lower s) = PyStr.contains "." s.
Proof. induction s as [|c s IH]; [done|]. simpl. by rewrite lower_char_dot, IH. Qed.

Lemma dotted_pair_lower (v : string) : dotted_pair v -> dotted_pair (PyStr.lower v).
Proof.
  intros (a & b & -> & Ha & Hb & Hna & Hnb).
  exists (PyStr.lower a), (PyStr.lower b). rewrite !lower_append.
  split; [done|]. split; [by destruct a|]. split; [by destruct b|].
  by rewrite !contains_dot_lower.
Qed.

Lemma new_accepts (body ec : EventCreate.t) :
  EventCreate.new body = inr ec <->
  exists et at_ cb ik,
    EventCreate.field_event_type (EventCreate.event_type body) = Return et /\
    EventCreate.field_aggregate_type (EventCreate.aggregate_type body) = Return at_ /\
    EventCreate.field_created_by (EventCreate.created_by body) = Return cb /\
    EventCreate.field_idempotency_key (EventCreate.idempotency_key body) = Return ik /\
    ec = {| EventCreate.event_type := et; EventCreate.aggregate_type := at_;
            EventCreate.aggregate_id := EventCreate.aggregate_id body;
            EventCreate.data := EventCreate.data body;
            EventCreate.metadata := EventCreate.metadata body;
            EventCreate.created_by := cb;
            EventCreate.correlation_id := EventCreate.correlation_id body;
            EventCreate.causation_id := EventCreate.causation_id body;
            EventCreate.idempotency_key := ik |}.
Proof.
  unfold EventCreate.new.
  destruct (EventCreate.field_event_type _) as [et|e1];
    destruct (EventCreate.field_aggregate_type _) as [at_|e2];
    destruct (EventCreate.field_created_by _) as [cb|e3];
    destruct (EventCreate.field_idempotency_key _) as [ik|e4];
    (split; [intros H; try discriminate H|intros (? & ? & ? & ? & H1 & H2 & H3 & H4 & ->);
                                           try discriminate]).
  - injection H as <-. by eexists _, _, _, _.
  - by injection H1 as <-; injection H2 as <-; injection H3 as <-; injection H4 as <-.
Qed.

(** X18.  A body that [EventCreate] accepts comes out with its type and
    its aggregate type in lower case and everything else as it was
    given; the type is still a dotted pair, the aggregate type is not
    empty and the actor carries one of the three prefixes.  What comes
    out is accepted again, unchanged, as long as the two lower-cased
    types are within their limits of 100 and 50 characters: validation
    is idempotent there.  The limits are checked before the validators
    lower the case; lowering keeps the length of a text whose
    characters are below code point 256, the texts of this development,
    and so keeps them within the limits, but Python lengthens the
    capital I with a dot above, which is why the proviso is stated. *)
Theorem event_create_normalises (body ec : EventCreate.t) :
  EventCreate.new body = inr ec ->
  EventCreate.event_type ec = PyStr.lower (EventCreate.event_type body) /\
  EventCreate.aggregate_type ec = PyStr.lower (EventCreate.aggregate_type body) /\
  EventCreate.created_by ec = EventCreate.created_by body /\
  EventCreate.aggregate_id ec = EventCreate.aggregate_id body /\
  EventCreate.data ec = EventCreate.data body /\
  EventCreate.metadata ec = EventCreate.metadata body /\
  EventCreate.correlation_id ec = EventCreate.correlation_id body /\
  EventCreate.causation_id ec = EventCreate.causation_id body /\
  EventCreate.idempotency_key ec = EventCreate.idempotency_key body /\
  dotted_pair (EventCreate.event_type ec) /\
  EventCreate.aggregate_type ec <> "" /\
  actor_prefixed (EventCreate.created_by ec) /\
  ((String.length (EventCreate.event_type ec) <= 100)%nat ->
   (String.length (EventCreate.aggregate_type ec) <= 50)%nat ->
   EventCreate.new ec = inr ec).
Proof.
  intros Hnew. apply new_accepts in Hnew as (et & at_ & cb & ik & H1 & H2 & H3 & H4 & ->).
  cbn. apply field_event_type_spec in H1 as (Hlen & Hdot & ->).
  apply field_created_by_spec in H3 as (Hlenc & Hact & ->).
  assert (Hat : at_ = PyStr.lower (EventCreate.aggregate_type body) /\
                (1 <= String.length (EventCreate.aggregate_type body))%nat).
  { unfold EventCreate.field_aggregate_type, EventCreate.field in H2.
    destruct (EventCreate.check_length 1 50 _) as [v|] eqn:Hc; [|done].
    apply check_length_spec in Hc as [[? ?] ->].
    unfold EventCreate.validate_aggregate_type in H2. by injection H2 as <-. }
  destruct Hat as [-> Hlena].
  assert (Hik : ik = EventCreate.idempotency_key body /\
                EventCreate.field_idempotency_key ik = Return ik).
  { unfold EventCreate.field_idempotency_key in *.
    destruct (EventCreate.idempotency_key body) as [k|]; [|by injection H4 as <-].
    destruct (EventCreate.check_length 0 255 k) as [k'|] eqn:Hc; [|done].
    injection H4 as <-. apply check_length_spec in Hc as [Hk ->].
    split; [done|]. by rewrite (proj2 (check_length_spec 0 255 k k) (conj Hk eq_refl)). }
  destruct Hik as [-> Hik].
  assert (Hnonempty : PyStr.lower (EventCreate.aggregate_type body) <> "").
  { intros Hempty. apply (f_equal String.length) in Hempty.
    rewrite lower_length in Hempty. cbn in Hempty. lia. }
  repeat split; try done.
  - by apply dotted_pair_lower.
  - intros Hfit Hfita. apply new_accepts. eexists _, _, _, _. cbn.
    split; [|split; [|split; [|split; [exact Hik|reflexivity]]]].
    + apply field_event_type_spec. rewrite lower_idempotent.
      split; [done|]. split; [by apply dotted_pair_lower|done].
    + unfold EventCreate.field_aggregate_type, EventCreate.field.
      assert (Hlo : (1 <= String.length (PyStr.lower (EventCreate.aggregate_type body)))%nat)
        by (rewrite lower_length; lia).
      rewrite (proj2 (check_length_spec 1 50 _ _) (conj (conj Hlo Hfita) eq_refl)).
      unfold EventCreate.validate_aggregate_type. by rewrite lower_idempotent.
    + by apply field_created_by_spec.
Qed.

Lemma event_create_normalises_witness :
  exists ec,
    EventCreate.new (Sample.body "Order.Payment_Received" "agent:billing") = inr ec /\
    EventCreate.event_type ec = "order.payment_received" /\
    EventCreate.new ec = inr ec.
Proof.
  eexists. split; [reflexivity|].
  destruct (event_create_normalises
              (Sample.body "Order.Payment_Received" "agent:billing") _ eq_refl)
    as (Hty & _ & _ & _ & _ & _ & _ & _ & _ & _ & _ & _ & Hagain).
  split; [exact Hty|]. apply Hagain; cbn; lia.
Defined.

(** ** The backlog after a batch *)

Lemma backlog_cons (e : Event) (rows : list Event) :
  backlog (e :: rows) = (if is_processed e then 0 else 1) + backlog rows.
Proof.
  unfold backlog, EventService.unprocessed. cbn.
  destruct (is_processed e); cbn [negb length]; lia.
Qed.

Lemma backlog_nonneg (rows : list Event) : 0 <= backlog rows.
Proof. unfold backlog. lia. Qed.

Lemma map_id_patched (i : UUID) (patch : Event -> Event) (rows : list Event) :
  (forall e, id (patch e) = id e) ->
  List.map id (patched i patch rows) = List.map id rows.
Proof.
  intros H. unfold patched. rewrite List.map_map. apply List.map_ext.
  intros e. destruct (String.eqb _ _); [apply H | done].
Qed.

Lemma elem_of_map_id (rows : list Event) (r : Event) :
  r ∈ rows -> id r ∈ List.map id rows.
Proof. intros H. rewrite list_elem_of_In. apply in_map. by rewrite <- list_elem_of_In. Qed.

Lemma patched_absent (i : UUID) (patch : Event -> Event) (rows : list Event) :
  i ∉ List.map id rows -> patched i patch rows = rows.
Proof.
  unfold patched. induction rows as [|a rows IH]; [done|]. cbn. intros Hn.
  destruct (String.eqb (id a) i) eqn:Ha.
  - apply String.eqb_eq in Ha. destruct Hn. rewrite Ha. apply elem_of_cons. by left.
  - rewrite IH; [done|]. intros Hin. apply Hn, elem_of_cons. by right.
Qed.

Lemma backlog_patched_processed (i : UUID) (now : instant) (rows : list Event) (r : Event) :
  NoDup (List.map id rows) -> r ∈ rows -> id r = i -> is_processed r = false ->
  backlog (patched i (set_processed now) rows) = backlog rows - 1.
Proof.
  induction rows as [|a rows IH]; intros Hnd Hin Hid Hun.
  - by apply elem_of_nil in Hin.
  - cbn [List.map] in Hnd. apply NoDup_cons in Hnd as [Hna Hnd].
    unfold patched. cbn [List.map]. fold (patched i (set_processed now) rows).
    apply elem_of_cons in Hin as [<-|Hin].
    + rewrite Hid, String.eqb_refl, !backlog_cons. cbn [set_processed is_processed].
      rewrite Hun, patched_absent; [lia|]. by rewrite <- Hid.
    + destruct (String.eqb (id a) i) eqn:Ha.
      * apply String.eqb_eq in Ha. destruct Hna. rewrite Ha, <- Hid.
        by apply elem_of_map_id.
      * rewrite !backlog_cons, IH; [lia|done..].
Qed.

Lemma backlog_patched_error (i : UUID) (msg : string) (rows : list Event) :
  (forall r, r ∈ rows -> id r = i -> is_processed r = false) ->
  backlog (patched i (set_error msg) rows) = backlog rows.
Proof.
  induction rows as [|a rows IH]; intros H; [done|].
  unfold patched. cbn [List.map]. fold (patched i (set_error msg) rows).
  rewrite !backlog_cons, IH.
  - destruct (String.eqb (id a) i) eqn:Ha; [|done].
    apply String.eqb_eq in Ha. cbn [set_error is_processed].
    rewrite (H a); [done| |done]. apply elem_of_cons. by left.
  - intros r Hin. apply H, elem_of_cons. by right.
Qed.

Lemma waiting_patched (i : UUID) (patch : Event -> Event) (rows : list Event) (e : Event) :
  (forall x, id (patch x) = id x) -> id e <> i ->
  waiting rows e -> waiting (patched i patch rows) e.
Proof.
  intros Hpatch Hne [(r & Hin & Hid) Hall]. split.
  - exists r. split; [|done]. apply elem_of_patched. exists r. split; [done|].
    destruct (String.eqb (id r) i) eqn:Hb; [|done].
    apply String.eqb_eq in Hb. congruence.
  - intros r' Hin' Hid'. apply elem_of_patched in Hin' as (r0 & Hin0 & ->).
    destruct (String.eqb (id r0) i) eqn:Hb.
    + apply String.eqb_eq in Hb. rewrite Hpatch in Hid'. congruence.
    + by apply Hall.
Qed.

(** Every turn of the loop of [process_pending_events] on an event that
    waits takes one row off the backlog when it succeeds and none when
    it fails. *)
Lemma process_next_backlog (evs : list Event) (t : tally) (w : World) :
  reliable w -> NoDup (List.map id (events w)) -> NoDup (List.map id evs) ->
  Forall (waiting (events w)) evs ->
  exists rs w',
    for_each evs process_next t w = (Return (tally_plus t rs), w') /\
    length rs = length evs /\
    backlog (events w') = backlog (events w) - successes rs.
Proof.
  revert t w. induction evs as [|ev evs IH]; intros t w Hrel Hnd Hnde Hwait.
  - exists [], w. cbn. rewrite tally_plus_nil. split; [done|]. split; [done|].
    unfold successes. cbn. lia.
  - destruct (process_event_run ev w) as (r & w1 & Hrun & _ & _ & Ho & _ & Hcase).
    cbn [List.map] in Hnde. apply NoDup_cons in Hnde as [Hnev Hnde].
    apply Forall_cons in Hwait as [[(r0 & Hin0 & Hid0) Hall0] Hwait].
    assert (Hrel1 : reliable w1).
    { intros k. destruct Ho as [_ ->]. apply Hrel. }
    assert (Hstep : NoDup (List.map id (events w1)) /\
                    Forall (waiting (events w1)) evs /\
                    backlog (events w1) =
                      backlog (events w) - (if success r then 1 else 0)).
    { destruct (getattr attributes (handler_name ev)) as [h|].
      - destruct (h ev) as [ops|e].
        + destruct Hcase as (-> & _ & _ & _ & _ & _ & ->). rewrite (Hrel (db_calls w)).
          split; [by rewrite map_id_patched|]. split.
          * rewrite Forall_forall in Hwait |- *. intros e He.
            apply waiting_patched; [done| |by apply Hwait].
            intros Heq. apply Hnev. rewrite <- Heq. by apply elem_of_map_id.
          * by eapply backlog_patched_processed; [|exact Hin0|..]; [done|done|apply Hall0].
        + destruct Hcase as (-> & _ & _ & _ & _ & _ & ->). rewrite (Hrel (db_calls w)).
          split; [by rewrite map_id_patched|]. split.
          * rewrite Forall_forall in Hwait |- *. intros e' He.
            apply waiting_patched; [done| |by apply Hwait].
            intros Heq. apply Hnev. rewrite <- Heq. by apply elem_of_map_id.
          * rewrite backlog_patched_error; [lia|done].
      - destruct Hcase as (-> & _ & _ & _ & -> & _). split; [done|]. split; [done|]. lia. }
    destruct Hstep as (Hnd1 & Hwait1 & Hb1).
    destruct (IH (count_result r t) w1 Hrel1 Hnd1 Hnde Hwait1)
      as (rs & w' & Hloop & Hlen & Hb).
    exists (r :: rs), w'. cbn [for_each]. unfold bind at 1, process_next at 1.
    unfold bind at 1. rewrite Hrun. unfold ret at 1. rewrite Hloop.
    split; [by rewrite count_result_plus, tally_plus_plus|].
    split; [cbn [length]; by rewrite Hlen|].
    rewrite successes_cons, Hb, Hb1. lia.
Qed.

Lemma pending_waiting (limit : nat) (w : World) :
  NoDup (List.map id (events w)) ->
  NoDup (List.map id (pending limit w)) /\ Forall (waiting (events w)) (pending limit w).
Proof.
  intros Hnd.
  pose proof (pending_unprocessed limit w) as Hall. rewrite Forall_forall in Hall.
  split.
  - apply (NoDup_fmap_2_strong id).
    + intros x y Hx Hy. apply (NoDup_map_inj id (events w)); [done|by apply Hall..].
    + eapply sublist_NoDup; [|apply sublist_take]. unfold order_asc.
      rewrite merge_sort_Permutation. apply NoDup_ListNoDup, List.NoDup_filter.
      apply NoDup_ListNoDup. by apply (NoDup_fmap_1 id).
  - rewrite Forall_forall. intros e He. destruct (Hall e He) as [Hin Hun]. split.
    + by exists e.
    + intros r Hr Hid. by rewrite (NoDup_map_inj id (events w) r e Hnd Hr Hin Hid).
Qed.

(** X19.  When the ids of the table are distinct and no database call
    fails, a batch over the pending events takes exactly its successful
    events off the backlog: the number of unprocessed rows afterwards is
    the number before less [successful].  Events that fail, or that no
    handler takes, stay in the backlog. *)
Theorem process_pending_events_backlog (limit : nat) (w : World) :
  reliable w -> NoDup (List.map id (events w)) ->
  exists b w',
    process_pending_events limit w = (Return b, w') /\
    backlog (events w') = backlog (events w) - successful b /\
    0 <= successful b <= backlog (events w) /\
    successful b + failed b = total_events b.
Proof.
  intros Hrel Hnd.
  destruct (pending_waiting limit w Hnd) as [Hndp Hwait].
  assert (Hgoal : exists b w',
             process_pending_events limit w = (Return b, w') /\
             backlog (events w') = backlog (events w) - successful b /\
             successful b + failed b = total_events b).
  { unfold process_pending_events.
    unfold bind at 1, time_time at 1. unfold try_except, bind at 1.
    rewrite get_unprocessed_events_run. cbn [db_fault db_calls with_ticks].
    rewrite (Hrel (db_calls w)).
    assert (Hp : pending limit (with_ticks (S (ticks w)) w) = pending limit w) by done.
    rewrite Hp. destruct (pending limit w) as [|ev evs] eqn:Hpend.
    - unfold ret. do 2 eexists. split; [reflexivity|]. cbn. split; lia.
    - destruct (process_next_backlog (ev :: evs) empty_tally
                  (with_db_calls (S (db_calls w)) (with_ticks (S (ticks w)) w)))
        as (rs & w1 & Hloop & Hlen & Hb); [done..|].
      unfold bind at 1. rewrite Hloop. unfold bind, time_time, ret.
      do 2 eexists. split; [reflexivity|]. cbn in *. split; [lia|].
      pose proof (successes_failures rs). lia. }
  destruct Hgoal as (b & w' & Hrun & Hb & Hsum). exists b, w'.
  split; [done|]. split; [done|]. split; [|done].
  destruct (process_pending_events_run limit w (Hrel _))
    as (b0 & w0 & Hrun0 & _ & _ & _ & _ & Hs & _).
  rewrite Hrun in Hrun0. injection Hrun0 as <- <-.
  pose proof (backlog_nonneg (events w')). unfold successes in Hs. lia.
Qed.

Lemma process_pending_events_backlog_witness :
  reliable (Sample.world [Sample.stock_updated; Sample.bad_update; Sample.sparkle;
                          Sample.done_already; Sample.price_changed]) /\
  exists b w',
    process_pending_events 100
      (Sample.world [Sample.stock_updated; Sample.bad_update; Sample.sparkle;
                     Sample.done_already; Sample.price_changed]) = (Return b, w') /\
    backlog (events w') = 4 - successful b.
Proof.
  assert (Hrel : reliable (Sample.world [Sample.stock_updated; Sample.bad_update;
                                         Sample.sparkle; Sample.done_already;
                                         Sample.price_changed]))
    by (intros k; reflexivity).
  assert (Hnd : NoDup (List.map id [Sample.stock_updated; Sample.bad_update;
                                    Sample.sparkle; Sample.done_already;
                                    Sample.price_changed])).
  { cbn. repeat constructor; rewrite ?elem_of_cons, ?elem_of_nil; intros H;
      repeat destruct H as [H|H]; by try discriminate H. }
  split; [exact Hrel|].
  destruct (process_pending_events_backlog 100 _ Hrel Hnd) as (b & w' & Hrun & Hb & _).
  exists b, w'. split; [exact Hrun | exact Hb].
Defined.

(** ** The routes *)

Lemma check_between_spec (name : string) (lo hi v : Z) :
  check_between name lo hi v = [] <-> lo <= v <= hi.
Proof.
  unfold check_between.
  destruct (Z.ltb_spec v lo); [split; [done|lia]|].
  destruct (Z.ltb_spec hi v); [split; [done|lia]|]. split; [lia|done].
Qed.

Lemma check_at_least_spec (name : string) (lo v : Z) :
  check_at_least name lo v = [] <-> lo <= v.
Proof.
  unfold check_at_least. destruct (Z.ltb_spec v lo); [split; [done|lia]|].
  split; [lia|done].
Qed.

Lemma serve_rejects {A} (errors : list EventCreate.field_error) (service : M A) (w : World) :
  errors <> [] -> serve errors service w = (inl errors, w).
Proof. by destruct errors. Qed.

(** X20.  The route that starts a batch only lets a limit between 1 and
    1000 through: any other limit is answered with validation errors
    and nothing happens; with a limit in range, and a fetch that goes
    through, the batch holds at most [limit] events, hence at most
    1000, one result for each, every one counted once as successful or
    as failed. *)
Theorem process_route_batch_size (limit : Z) (w : World) :
  db_fault w (db_calls w) = None ->
  ((limit < 1 \/ 1000 < limit) /\
   exists errs,
     errs <> [] /\
     DatabaseManagerRoutes.process_pending_events limit w = (inl errs, w)) \/
  (1 <= limit <= 1000 /\
   exists b w',
     DatabaseManagerRoutes.process_pending_events limit w = (inr (Return b), w') /\
     0 <= total_events b <= limit /\
     Z.of_nat (length (results b)) = total_events b /\
     successful b + failed b = total_events b).
Proof.
  intros Hok. unfold DatabaseManagerRoutes.process_pending_events.
  destruct (check_between "limit" 1 1000 limit) as [|err errs] eqn:Hc.
  - right. apply check_between_spec in Hc. split; [done|].
    destruct (process_pending_events_run (Z.to_nat limit) w Hok)
      as (b & w' & Hrun & _ & _ & Htot & Hids & Hs & Hf & _).
    exists b, w'. unfold serve. rewrite Hrun. split; [done|].
    assert (Hlen : length (results b) = length (pending (Z.to_nat limit) w)).
    { apply (f_equal (@length _)) in Hids. by rewrite !length_map in Hids. }
    assert (Hle : (length (pending (Z.to_nat limit) w) <= Z.to_nat limit)%nat).
    { unfold pending. rewrite length_take. lia. }
    pose proof (successes_failures (results b)). lia.
  - left. split.
    + destruct (Z_lt_dec limit 1) as [|H1]; [by left|].
      destruct (Z_lt_dec 1000 limit) as [|H2]; [by right|].
      assert (Hin : 1 <= limit <= 1000) by lia.
      apply check_between_spec with (name := "limit") in Hin. congruence.
    + by exists (err :: errs).
Qed.

Lemma process_route_batch_size_witness :
  exists b w',
    DatabaseManagerRoutes.process_pending_events 2
      (Sample.world [Sample.stock_updated; Sample.bad_update; Sample.price_changed]) =
      (inr (Return b), w') /\
    0 <= total_events b <= 2.
Proof.
  destruct (process_route_batch_size 2
              (Sample.world [Sample.stock_updated; Sample.bad_update;
                             Sample.price_changed]) eq_refl)
    as [[Hout _]|[_ (b & w' & Hrun & Hsize & _)]]; [lia|].
  exists b, w'. split; [exact Hrun | exact Hsize].
Defined.

(** X21.  The route that reads the event stream does not filter on the
    processing status: whatever is asked for in [processed], the answer
    is the one for no such filter, so with no offset and few enough
    matching rows every row that matches the other filters is on the
    page, processed or not. *)
Theorem get_events_route_ignores_processed
        (event_type_ aggregate_type_ : option string) (aggregate_id_ : option UUID)
        (created_by_ : option string) (correlation_id_ : option UUID)
        (processed : option bool) (limit : Z) (w : World) :
  1 <= limit <= 1000 -> db_fault w (db_calls w) = None ->
  let query := {| q_event_type := event_type_; q_aggregate_type := aggregate_type_;
                  q_aggregate_id := aggregate_id_; q_created_by := created_by_;
                  q_correlation_id := correlation_id_; q_is_processed := None;
                  q_limit := Z.to_nat limit; q_offset := 0 |} in
  exists page w',
    EventRoutes.get_events event_type_ aggregate_type_ aggregate_id_ created_by_
      correlation_id_ processed limit 0 w = (inr (Return page), w') /\
    EventService.get_events query w = (Return page, w') /\
    ((length (List.filter (EventService.matches query) (events w)) <= Z.to_nat limit)%nat ->
     forall e, e ∈ events w ->
       (forall t, event_type_ = Some t -> t <> "" -> event_type e = t) ->
       (forall t, aggregate_type_ = Some t -> t <> "" -> aggregate_type e = t) ->
       (forall a, aggregate_id_ = Some a -> aggregate_id e = a) ->
       (forall c, created_by_ = Some c -> c <> "" -> created_by e = c) ->
       (forall c, correlation_id_ = Some c -> correlation_id e = Some c) ->
       e ∈ page).
Proof.
  intros Hlimit Hok query. unfold EventRoutes.get_events.
  assert (Hc : check_between "limit" 1 1000 limit ++ check_at_least "offset" 0 0 = []).
  { by rewrite (proj2 (check_between_spec "limit" 1 1000 limit) Hlimit). }
  rewrite Hc. unfold serve. change (Z.to_nat 0) with 0%nat. fold query.
  rewrite get_events_run, Hok. do 2 eexists. split; [reflexivity|]. split; [reflexivity|].
  intros Hfew e Hin H1 H2 H3 H4 H5. cbn [q_limit q_offset query].
  rewrite drop_0, take_ge.
  - unfold order_desc. rewrite merge_sort_Permutation.
    apply elem_of_bool_filter. split; [done|]. apply matches_spec. by repeat split.
  - unfold order_desc. by rewrite merge_sort_Permutation.
Qed.

Lemma get_events_route_ignores_processed_witness :
  exists page w',
    EventRoutes.get_events None None None None None (Some false) 100 0
      (Sample.world Sample.mixed) = (inr (Return page), w') /\
    Sample.done_already ∈ page.
Proof.
  destruct (get_events_route_ignores_processed None None None None None (Some false) 100
              (Sample.world Sample.mixed) ltac:(lia) eq_refl)
    as (page & w' & Hrun & _ & Hall).
  exists page, w'. split; [exact Hrun|].
  apply Hall; try done.
  - cbn. lia.
  - apply elem_of_cons. by left.
Defined.

(** ** The mapping table and the handlers *)

Lemma get_event_mappings_pure (w : World) : snd (get_event_mappings w) = w.
Proof. reflexivity. Qed.

Lemma documented_types (w : World) :
  documented w =
  ["product.created"; "product.updated"; "product.price_changed";
   "product.stock_updated"; "order.created"; "order.payment_received";
   "order.status_changed"; "order.fulfilled"; "customer.registered";
   "dealer.application_submitted"; "dealer.approved"; "agent.decision_proposed";
   "agent.decision_approved"].
Proof. reflexivity. Qed.

Lemma has_handler_of_type (ty : string) (e : Event) :
  event_type e = ty ->
  has_handler e =
  match getattr attributes ("_handle_" +:+ PyStr.replace "." "_" ty) with
  | Some _ => true
  | None => false
  end.
Proof. by intros <-. Qed.

(** X22.  The table of [get_event_mappings] answers the same thirteen
    entries in every world and changes nothing.  Every event type it
    documents has a handler, so an event of a documented type is never
    answered with the no-handler failure.  The table is not complete:
    five event types have a handler and no entry. *)
Theorem documented_types_have_handlers (w : World) (e : Event) :
  event_type e ∈ documented w ->
  has_handler e = true /\
  snd (get_event_mappings w) = w /\
  length (documented w) = 13%nat /\
  Forall (fun ty => (ty ∉ documented w) /\
                    forall e', event_type e' = ty -> has_handler e' = true)
         ["product.deactivated"; "order.cancelled"; "customer.profile_updated";
          "dealer.pricing_updated"; "agent.decision_rejected"].
Proof.
  rewrite documented_types. intros Hin.
  split; [|split; [apply get_event_mappings_pure|split; [reflexivity|]]].
  - repeat (apply elem_of_cons in Hin as [Hin|Hin];
            [rewrite (has_handler_of_type _ _ Hin); vm_compute; reflexivity|]).
    by apply elem_of_nil in Hin.
  - repeat (rewrite Forall_cons; split); try (by apply Forall_nil);
      (split;
       [refine (bool_decide_unpack _ _); vm_compute; exact I
       |intros e' He'; rewrite (has_handler_of_type _ _ He'); vm_compute; reflexivity]).
Qed.

Lemma documented_types_have_handlers_witness :
  has_handler Sample.price_changed = true.
Proof.
  refine (proj1 (documented_types_have_handlers (Sample.world []) Sample.price_changed _)).
  rewrite documented_types, !elem_of_cons. right. right. by left.
Defined.

(** ** Forced reprocessing *)


